(** * Discover table view and organization rate limits

    A shallow embedding of
    [src/sentry/static/sentry/app/views/eventsV2/table/tableView.tsx]
    (the [TableView] component) and of the organization rate-limit form
    ([getRateLimitValues] and the two [formatLabel] callbacks), with the
    properties of their specification stated and proved over it. *)

From Stdlib Require Import Ascii.
From stdpp Require Import gmap strings list fin_maps pretty sorting.
From Equations Require Import Equations.

Local Open Scope Z_scope.

(** ** Data of the table view *)

(** [Field] of an event view: the column string and its width. *)
Module Field.
Record t : Type := Build { field : string; width : Z }.
End Field.

(** What [explodeField] returns. *)
Module Exploded.
Record t : Type := Build { aggregation : string; field : string; width : Z }.
End Exploded.

(** [TableColumn<keyof TableDataRow>], with the properties the component
    reads.  The [ColumnValueType] tag is a string at run time, as is the
    column key. *)
Module TableColumn.
Record t : Type := Build {
  key : string;
  name : string;
  aggregation : string;
  field : string;
  eventViewField : Field.t;
  type : string;
  width : Z;
  isDragging : bool
}.

(** [{...c, isDragging: true}] for a column object [c]. *)
Definition dragging (c : t) : t :=
  Build (key c) (name c) (aggregation c) (field c) (eventViewField c)
        (type c) (width c) true.
End TableColumn.

(** ** JavaScript arrays of columns *)

Module JsArray.

(** A slot of a column array: a column object, [undefined] (also what a
    hole of a sparse array reads as), or the object [{isDragging: true}]
    that spreading [undefined] produces. *)
Inductive Slot : Type :=
| Undefined
| Column (c : TableColumn.t)
| DraggingOnly.

#[global] Instance Slot_inhabited : Inhabited Slot := populate Undefined.

(** [{...x, isDragging: true}]: spreading [undefined] copies nothing. *)
Definition spread_isDragging (x : Slot) : Slot :=
  match x with
  | Undefined => DraggingOnly
  | Column c => Column (TableColumn.dragging c)
  | DraggingOnly => DraggingOnly
  end.

(** [a[i]]: [undefined] outside [0 .. length-1]. *)
Definition get (a : list Slot) (i : Z) : Slot :=
  if decide (i < 0) then Undefined
  else default Undefined (a !! Z.to_nat i).

(** The largest array index plus one, [2^32 - 1]. *)
Definition MAX_ARRAY_LENGTH : Z := 4294967295.

(** [a[i] = v]: below the length the slot is replaced; from the length on
    the array grows to length [i+1], the slots in between being holes,
    as long as [i] is an array index (at most [2^32 - 2]); a negative or
    larger [i] names an ordinary property and leaves the elements as
    they are. *)
Definition set (a : list Slot) (i : Z) (v : Slot) : list Slot :=
  if decide (i < 0) then a
  else if decide (i < Z.of_nat (length a)) then <[Z.to_nat i := v]> a
  else if decide (i < MAX_ARRAY_LENGTH)
       then a ++ replicate (Z.to_nat i - length a)%nat Undefined ++ [v]
       else a.

(** [y] is the object [{...x, isDragging: true}]: [isDragging] is [true]
    and every other property is that of [x] ([undefined] has none). *)
Definition dragging_copy (x y : Slot) : Prop :=
  match x, y with
  | Column c, Column c' =>
      TableColumn.isDragging c' = true ∧
      TableColumn.key c' = TableColumn.key c ∧
      TableColumn.name c' = TableColumn.name c ∧
      TableColumn.aggregation c' = TableColumn.aggregation c ∧
      TableColumn.field c' = TableColumn.field c ∧
      TableColumn.eventViewField c' = TableColumn.eventViewField c ∧
      TableColumn.type c' = TableColumn.type c ∧
      TableColumn.width c' = TableColumn.width c
  | Undefined, DraggingOnly => True
  | DraggingOnly, DraggingOnly => True
  | _, _ => False
  end.

(** [a.splice(start, deleteCount, ...items)]: the removed elements and
    the array afterwards.  A negative [start] counts from the end; both
    arguments are clamped to the array. *)
Definition splice (a : list Slot) (start deleteCount : Z) (items : list Slot)
  : list Slot * list Slot :=
  let len := Z.of_nat (length a) in
  let actualStart := if decide (start < 0) then Z.max (len + start) 0
                     else Z.min start len in
  let actualDeleteCount := Z.min (Z.max deleteCount 0) (len - actualStart) in
  (take (Z.to_nat actualDeleteCount) (drop (Z.to_nat actualStart) a),
   take (Z.to_nat actualStart) a ++ items
     ++ drop (Z.to_nat actualStart + Z.to_nat actualDeleteCount) a).

End JsArray.

(** ** The store of arrays *)

(** Arrays are objects: a variable holds a reference, and a write through
    one reference is seen through every other.  [M] threads the store; a
    computation fails only on a reference that the store does not hold. *)
Module Store.
Import JsArray.

Abbreviation loc := positive.
Abbreviation heap := (gmap positive (list Slot)).
Definition M (A : Type) : Type := heap → option (A * heap).

Definition ret {A} (x : A) : M A := λ h, Some (x, h).
Definition bind {A B} (m : M A) (k : A → M B) : M B :=
  λ h, match m h with
       | Some (x, h') => k x h'
       | None => None
       end.

(** [a[i]] through a reference. *)
Definition read (l : loc) (i : Z) : M Slot :=
  λ h, match h !! l with
       | Some a => Some (get a i, h)
       | None => None
       end.

(** [a[i] = v] through a reference: the array is updated in place. *)
Definition write (l : loc) (i : Z) (v : Slot) : M unit :=
  λ h, match h !! l with
       | Some a => Some (tt, <[l := set a i v]> h)
       | None => None
       end.

(** [[...a]]: a new array with the elements of [a]. *)
Definition copy (l : loc) : M loc :=
  λ h, match h !! l with
       | Some a => let l' := fresh (dom h) in Some (l', <[l' := a]> h)
       | None => None
       end.

(** [a.splice(start, deleteCount, ...items)] through a reference: [a] is
    updated in place and the removed elements are returned. *)
Definition splice_at (l : loc) (start deleteCount : Z) (items : list Slot)
  : M (list Slot) :=
  λ h, match h !! l with
       | Some a => let '(removed, a') := splice a start deleteCount items in
                   Some (removed, <[l := a']> h)
       | None => None
       end.

#[global] Instance M_ret : MRet M := @ret.
#[global] Instance M_bind : MBind M := λ A B k m, bind m k.
End Store.

(** ** generateColumnOrder *)

Module Preview.
Import JsArray Store.

(** [generateColumnOrder]; [columnOrder] is the reference that
    [eventView.getColumns()] returned. *)
Definition generateColumnOrder (columnOrder : loc)
    (initialColumnIndex destinationColumnIndex : option Z) : M loc :=
  match destinationColumnIndex, initialColumnIndex with
  | Some destinationColumnIndex, Some initialColumnIndex =>
      if decide (destinationColumnIndex = initialColumnIndex) then
        x ← read columnOrder destinationColumnIndex;
        let currentDraggingColumn := spread_isDragging x in
        write columnOrder destinationColumnIndex currentDraggingColumn;;
        mret columnOrder
      else
        nextColumnOrder ← copy columnOrder;
        removed ← splice_at nextColumnOrder initialColumnIndex 1 [];
        splice_at nextColumnOrder destinationColumnIndex 0 [get removed 0];;
        x ← read nextColumnOrder destinationColumnIndex;
        let currentDraggingColumn := spread_isDragging x in
        write nextColumnOrder destinationColumnIndex currentDraggingColumn;;
        mret nextColumnOrder
  | _, _ => mret columnOrder
  end.

(** The elements of [nextColumnOrder] when the copying branch returns. *)
Definition next_order (columnOrder : list Slot)
    (initialColumnIndex destinationColumnIndex : Z) : list Slot :=
  let '(removed, a1) := splice columnOrder initialColumnIndex 1 [] in
  let '(_, a2) := splice a1 destinationColumnIndex 0 [get removed 0] in
  set a2 destinationColumnIndex
      (spread_isDragging (get a2 destinationColumnIndex)).

(** [next] is [base] with the element at [source] moved to [destination]
    and flagged there: the same length, at [destination] a copy of the
    moved element with [isDragging] true, the other elements in their
    order, and a permutation of [base] once the moved element is put
    back for its copy. *)
Definition relocated (base next : list Slot) (source destination : nat) : Prop :=
  length next = length base ∧
  ∃ moved flagged,
    base !! source = Some moved ∧
    next !! destination = Some flagged ∧
    dragging_copy moved flagged ∧
    delete destination next = delete source base ∧
    <[destination := moved]> next ≡ₚ base.

(** [next] is [base] with only the element at [i] flagged: at [i] a copy
    of the element with [isDragging] true, elsewhere the same elements. *)
Definition flagged_only (base next : list Slot) (i : nat) : Prop :=
  length next = length base ∧
  (∃ x flagged,
     base !! i = Some x ∧ next !! i = Some flagged ∧ dragging_copy x flagged) ∧
  ∀ k, k ≠ i → next !! k = base !! k.
End Preview.

(** ** Values, rows, metadata and props *)

(** Cell values and numbers that may be [NaN]. *)
Inductive Val : Type :=
| Str (s : string)
| Num (n : Z)
| NaN.

(** [MetaType]: aggregate alias to value-type tag. *)
Abbreviation MetaType := (gmap string string).
(** [TableDataRow]: column key to cell value. *)
Abbreviation TableDataRow := (gmap string Val).
(** A query-string object. *)
Abbreviation Query := (gmap string string).

Module TableData.
Record t : Type := Build { meta : option MetaType; data : list TableDataRow }.
End TableData.

Module Location.
Record t : Type := Build { pathname : string; query : Query }.
End Location.

Module Organization.
Record t : Type := Build { id : string; slug : string }.
End Organization.

(** An [EventView] object is known by its reference: [!==] on two of them
    compares the references.  Its properties are read-only. *)
Definition EventView : Type := positive.

(** The props that the handlers and render functions read. *)
Module Props.
Record t : Type := Build {
  location : Location.t;
  organization : Organization.t;
  eventView : EventView;
  tableData : option TableData.t
}.
End Props.

(** The [payload] object of [_updateColumn]. *)
Module Payload.
Record t : Type := Build { aggregation : string; field : string; width : Z }.
End Payload.

(** The object given to [trackAnalyticsEvent] by [_updateColumn]. *)
Module UpdateColumnEvent.
Record t : Type := Build {
  eventKey : string;
  eventName : string;
  updated_at_index : Z;
  changed : list string;
  organization_id : Val;
  payload : Payload.t
}.
End UpdateColumnEvent.

(** The object given to [trackAnalyticsEvent] by [_moveColumnCommit]. *)
Module MoveColumnEvent.
Record t : Type := Build {
  eventKey : string;
  eventName : string;
  from_index : Z;
  to_index : Z;
  organization_id : Val;
  aggregation : string;
  field : string
}.
End MoveColumnEvent.

(** What a handler does to the outside, in order. *)
Inductive Effect : Type :=
| TrackUpdateColumn (e : UpdateColumnEvent.t)
| TrackMoveColumn (e : MoveColumnEvent.t)
| PushEventViewToLocation (location : Location.t) (nextEventView : EventView)
                          (extraQuery : Query).

(** [Alignments] of the sort link. *)
Module Alignments.
Inductive t : Type := left | right.
End Alignments.

Module SortLinkProps.
Record t : Type := Build {
  align : Alignments.t;
  field : Field.t;
  location : Location.t;
  eventView : EventView;
  tableDataMeta : option MetaType
}.
End SortLinkProps.

(** The link target [{pathname, query}]. *)
Module Target.
Record t : Type := Build { pathname : string; query : Query }.
End Target.

(** What the render functions return.  A function component stands for
    what it renders. *)
Inductive ReactNode : Type :=
| CellValue (v : option Val)
| Text (s : string)
| SortLink (props : SortLinkProps.t)
| BaseLink (to : Target.t) (children : ReactNode)
| Fragment (children : ReactNode).

(** [l[i]] on an array that is only read: [None] is [undefined]. *)
Definition index {A} (l : list A) (i : Z) : option A :=
  if decide (i < 0) then None else l !! Z.to_nat i.

(** ** The TableView component *)

Module TableView.
Section TableView.

(** The imports of the component, which it only calls.  [explodeField]
    is given [None] for [undefined] and answers [None] when it throws. *)
Variable COL_WIDTH_UNDEFINED : Z.
Variable parseInt : string → Z → Val.
Variable fields : EventView → list Field.t.
Variable withUpdatedColumn : EventView → Z → Payload.t → option MetaType → EventView.
Variable withMovedColumn : EventView → Z → Z → EventView.
Variable explodeField : option Field.t → option Exploded.t.
Variable getAggregateAlias : string → string.
Variable getFieldRenderer :
  string → MetaType → TableDataRow → Organization.t * Location.t → ReactNode.
Variable getExpandedResults : EventView → Query → TableDataRow → EventView.
Variable generateQueryStringObject : EventView → Query.
Variable pickRelevantLocationQueryStrings : Location.t → Query.

Variable props : Props.t.

(** [changed.push(s)] when [b]. *)
Definition push_if (b : bool) (s : string) (changed : list string) : list string :=
  if b then changed ++ [s] else changed.

(** [_updateColumn]: the effects, or [None] when [explodeField] throws
    (which is before any effect).  [String] of a string is that string,
    and a width is falsy when it is 0. *)
Definition _updateColumn (columnIndex : Z) (nextColumn : TableColumn.t)
  : option (list Effect) :=
  let location := Props.location props in
  let eventView := Props.eventView props in
  let tableData := Props.tableData props in
  let organization := Props.organization props in
  let payload :=
    Payload.Build (TableColumn.aggregation nextColumn)
                  (TableColumn.field nextColumn)
                  (if decide (TableColumn.width nextColumn = 0)
                   then COL_WIDTH_UNDEFINED
                   else TableColumn.width nextColumn) in
  let tableMeta := tableData ≫= TableData.meta in
  let nextEventView := withUpdatedColumn eventView columnIndex payload tableMeta in
  tracked ←
    (if decide (nextEventView ≠ eventView) then
       let changed : list string := [] in
       prevField ← explodeField (index (fields eventView) columnIndex);
       nextField ← explodeField (index (fields nextEventView) columnIndex);
       let aggregationChanged :=
         bool_decide (Exploded.aggregation prevField ≠ Exploded.aggregation nextField) in
       let fieldChanged :=
         bool_decide (Exploded.field prevField ≠ Exploded.field nextField) in
       let widthChanged :=
         bool_decide (Exploded.width prevField ≠ Exploded.width nextField) in
       let changed := push_if aggregationChanged "aggregate" changed in
       let changed := push_if fieldChanged "field" changed in
       let changed := push_if widthChanged "width" changed in
       Some [TrackUpdateColumn
               (UpdateColumnEvent.Build
                  "discover_v2.update_column"
                  "Discoverv2: A column was updated"
                  columnIndex
                  changed
                  (parseInt (Organization.id organization) 10)
                  payload)]
     else Some []);
  Some (tracked ++
        [PushEventViewToLocation location nextEventView
           (pickRelevantLocationQueryStrings location)]).

(** [_moveColumnCommit]. *)
Definition _moveColumnCommit (fromIndex toIndex : Z) : option (list Effect) :=
  let location := Props.location props in
  let eventView := Props.eventView props in
  let organization := Props.organization props in
  prevField ← explodeField (index (fields eventView) fromIndex);
  let nextEventView := withMovedColumn eventView fromIndex toIndex in
  Some [TrackMoveColumn
          (MoveColumnEvent.Build
             "discover_v2.move_column"
             "Discoverv2: A column was moved"
             fromIndex
             toIndex
             (parseInt (Organization.id organization) 10)
             (Exploded.aggregation prevField)
             (Exploded.field prevField));
        PushEventViewToLocation location nextEventView
          (pickRelevantLocationQueryStrings location)].

(** The [onDragDone] callback that [render] gives to [DraggableColumns]. *)
Definition onDragDone (draggingColumnIndex destinationColumnIndex : option Z)
  : option (list Effect) :=
  match draggingColumnIndex, destinationColumnIndex with
  | Some draggingColumnIndex, Some destinationColumnIndex =>
      if decide (draggingColumnIndex ≠ destinationColumnIndex)
      then _moveColumnCommit draggingColumnIndex destinationColumnIndex
      else Some []
  | _, _ => Some []
  end.

(** The alignment that [_renderGridHeaderCell] establishes. *)
Definition header_align (column : TableColumn.t) : Alignments.t :=
  let tableData := Props.tableData props in
  let field := TableColumn.eventViewField column in
  let alignedTypes : list string := ["number"; "duration"; "integer"] in
  let align := if decide (TableColumn.type column ∈ alignedTypes)
               then Alignments.right else Alignments.left in
  if decide (TableColumn.type column = "never" ∨ TableColumn.type column = "*") then
    let maybeType :=
      match tableData ≫= TableData.meta with
      | Some meta => meta !! getAggregateAlias (Field.field field)
      | None => None
      end in
    if decide (maybeType = Some "integer" ∨ maybeType = Some "number")
    then Alignments.right else align
  else align.

(** [_renderGridHeaderCell]. *)
Definition _renderGridHeaderCell (column : TableColumn.t) : ReactNode :=
  SortLink
    (SortLinkProps.Build
       (header_align column)
       (TableColumn.eventViewField column)
       (Props.location props)
       (Props.eventView props)
       (Props.tableData props ≫= TableData.meta)).

(** [ExpandAggregateRow]; [None] when [explodeField] throws. *)
Definition ExpandAggregateRow (children : bool → ReactNode)
    (eventView : EventView) (column : TableColumn.t) (dataRow : TableDataRow)
    (location : Location.t) (tableMeta : MetaType) : option ReactNode :=
  let eventViewField := TableColumn.eventViewField column in
  exploded ← explodeField (Some eventViewField);
  let aggregation := Exploded.aggregation exploded in
  if decide (aggregation = "count") then
    let nextView := getExpandedResults eventView ∅ dataRow in
    let target :=
      Target.Build (Location.pathname location)
                   (generateQueryStringObject nextView) in
    Some (BaseLink target (children true))
  else Some (Fragment (children false)).

(** The function that [_renderGridBodyCell] gives to
    [ExpandAggregateRow] as its children.  It is only built under the
    guard on [tableData.meta], so its [assert] passes. *)
Definition bodyCell_children (column : TableColumn.t) (dataRow : TableDataRow)
    (meta : MetaType) (willExpand : bool) : ReactNode :=
  let organization := Props.organization props in
  let location := Props.location props in
  if negb willExpand then
    let fieldRenderer := getFieldRenderer (TableColumn.key column) meta in
    fieldRenderer dataRow (organization, location)
  else
    let fieldRenderer := getFieldRenderer (TableColumn.key column) meta in
    fieldRenderer dataRow (organization, location).

(** [_renderGridBodyCell]. *)
Definition _renderGridBodyCell (column : TableColumn.t) (dataRow : TableDataRow)
  : option ReactNode :=
  match Props.tableData props ≫= TableData.meta with
  | None => Some (CellValue (dataRow !! TableColumn.key column))
  | Some meta =>
      ExpandAggregateRow (bodyCell_children column dataRow meta)
        (Props.eventView props) column dataRow (Props.location props) meta
  end.

End TableView.
End TableView.

(** ** The organization rate-limit form *)

Module RateLimit.

(** The loop of [getRateLimitValues], from the state [(i, steps)]. *)
Equations? steps_from (i : Z) (steps : list Z) : list Z
  by wf (Z.to_nat (1000001 - i)) lt :=
  steps_from i steps with decide (i ≤ 1000000) := {
    | left _ =>
        steps_from (if decide (i < 10000) then i + 1000
                    else if decide (i < 100000) then i + 10000
                    else i + 100000)
                   (steps ++ [i])
    | right _ => steps
  }.
Proof. repeat case_decide; lia. Qed.

Definition getRateLimitValues : list Z := steps_from 0 [].

(** Generated once, when the module is loaded. *)
Definition ACCOUNT_RATE_LIMIT_VALUES : list Z := getRateLimitValues.

(** What a [formatLabel] returns: a string, or the
    [<span dangerouslySetInnerHTML={{__html: html}} />] element. *)
Inductive Label : Type :=
| LabelText (s : string)
| LabelHtml (html : string).

Module RangeField.
Record t : Type := Build {
  name : string;
  label : string;
  help : string;
  placeholder : option string;
  min : Z;
  max : Z;
  step : option Z;
  allowedValues : option (list Z);
  formatLabel : option Z → Label
}.
End RangeField.

Module Quota.
Record t : Type := Build { projectLimit : option Z; accountLimit : option Z }.
End Quota.

Module InitialData.
Record t : Type := Build { projectRateLimit : Z; accountRateLimit : option Z }.
End InitialData.

(** [Number.MAX_SAFE_INTEGER], [2^53 - 1]: up to it every integer is a
    number and is printed with all its decimal digits. *)
Definition MAX_SAFE_INTEGER : Z := 9007199254740991.

(** [!value] for a slider value. *)
Definition falsy (value : option Z) : bool :=
  match value with
  | Some n => bool_decide (n = 0)
  | None => true
  end.

Section Form.
(** The translation functions of [app/locale], and
    [Number.prototype.toLocaleString]. *)
Variable t : string → string.
Variable tct : string → list (string * string) → string.
Variable toLocaleString : Z → string.
(** [Number.prototype.toString] on the numbers beyond the safe integers,
    where it rounds the digits or writes an exponent. *)
Variable toString : Z → string.

(** [`${value}`] for a slider value; [None] is [undefined]. *)
Definition template (value : option Z) : string :=
  match value with
  | Some n => if decide (Z.abs n ≤ MAX_SAFE_INTEGER) then pretty n else toString n
  | None => "undefined"
  end.

(** [formatLabel] of the account limit. *)
Definition accountRateLimit_formatLabel (value : option Z) : Label :=
  if falsy value then LabelText (t "No Limit")
  else LabelText (tct "[number] per hour"
                    [("number", toLocaleString (default 0 value))]).

(** [formatLabel] of the per-project limit. *)
Definition projectRateLimit_formatLabel (value : option Z) : Label :=
  if decide (value ≠ Some 100) then LabelText (template value +:+ "%")
  else LabelHtml (t "No Limit" +:+ " &mdash; 100%").

(** [initialData] of [render]. *)
Definition initialData (quota : Quota.t) : InitialData.t :=
  InitialData.Build
    (if falsy (Quota.projectLimit quota) then 100
     else default 0 (Quota.projectLimit quota))
    (Quota.accountLimit quota).

(** The two [RangeField]s of [render]. *)
Definition accountRateLimit : RangeField.t :=
  RangeField.Build
    "accountRateLimit"
    (t "Account Limit")
    (t "The maximum number of events to accept across this entire organization.")
    (Some (t "e.g. 500"))
    0 1000000 None
    (Some ACCOUNT_RATE_LIMIT_VALUES)
    accountRateLimit_formatLabel.

Definition projectRateLimit : RangeField.t :=
  RangeField.Build
    "projectRateLimit"
    (t "Per-Project Limit")
    (t "The maximum percentage of the account limit (set above) that an individual project can consume.")
    None
    50 100 (Some 5)
    None
    projectRateLimit_formatLabel.
End Form.

(** The text that a browser shows for inner HTML without tags, where
    [&mdash;] stands for the em dash. *)
Fixpoint shown_text (html : string) : string :=
  match html with
  | String "&"%char (String "m"%char (String "d"%char (String "a"%char
      (String "s"%char (String "h"%char (String ";"%char rest)))))) =>
      "—" +:+ shown_text rest
  | String c rest => String c (shown_text rest)
  | EmptyString => EmptyString
  end.

End RateLimit.

(** ** Sample data *)

Module Samples.
Import JsArray.

Definition column (key type : string) : TableColumn.t :=
  TableColumn.Build key key "" key (Field.Build key (-1)) type (-1) false.

Definition id_column : Slot := Column (column "id" "string").
Definition title_column : Slot := Column (column "title" "string").
Definition count_column : Slot := Column (column "count()" "number").

(** A store with one array of two columns, and one of three. *)
Definition two_columns : gmap positive (list Slot) :=
  {[ 1%positive := [id_column; title_column] ]}.
Definition three_columns : gmap positive (list Slot) :=
  {[ 1%positive := [id_column; title_column; count_column] ]}.

(** A table of the columns [id] and [count()] with its metadata, and
    stand-ins for the functions that the component imports. *)
Definition location : Location.t := Location.Build "/organizations/acme/eventsv2/" ∅.

Definition props : Props.t :=
  Props.Build location (Organization.Build "42" "acme") 1%positive
    (Some (TableData.Build (Some {[ "count" := "integer" ]}) [])).

Definition props_without_data : Props.t :=
  Props.Build location (Organization.Build "42" "acme") 1%positive None.

Definition fields (eventView : EventView) : list Field.t :=
  if decide (eventView = 1%positive)
  then [Field.Build "id" (-1); Field.Build "count()" (-1)]
  else [Field.Build "count()" (-1); Field.Build "id" (-1)].

Definition withMovedColumn (eventView : EventView) (fromIndex toIndex : Z) : EventView :=
  2%positive.

Definition explodeField (field : option Field.t) : option Exploded.t :=
  match field with
  | Some f =>
      if decide (Field.field f = "count()")
      then Some (Exploded.Build "count" "" (Field.width f))
      else Some (Exploded.Build "" (Field.field f) (Field.width f))
  | None => None
  end.

Definition parseInt (s : string) (radix : Z) : Val :=
  if decide (s = "42") then Num 42 else NaN.

Definition getAggregateAlias (field : string) : string :=
  if decide (field = "count()") then "count" else field.

Definition getFieldRenderer (key : string) (meta : gmap string string)
    (dataRow : gmap string Val) (context : Organization.t * Location.t) : ReactNode :=
  CellValue (dataRow !! key).

Definition getExpandedResults (eventView : EventView) (additional : gmap string string)
    (dataRow : gmap string Val) : EventView := 3%positive.

Definition generateQueryStringObject (eventView : EventView) : gmap string string :=
  {[ "field" := "id" ]}.

Definition pickRelevantLocationQueryStrings (l : Location.t) : gmap string string := ∅.

Definition row : gmap string Val := {[ "id" := Str "abc"; "count()" := Num 7 ]}.
End Samples.

(** The translation functions without a catalogue, and the en-US number
    format. *)
Module English.

Definition t (s : string) : string := s.

Fixpoint argument (name : string) (args : list (string * string)) : string :=
  match args with
  | [] => ""
  | (k, v) :: rest => if decide (k = name) then v else argument name rest
  end.

(** Each [[name]] of the template is replaced by its argument. *)
Fixpoint fill (template : string) (name : option string)
    (args : list (string * string)) : string :=
  match template, name with
  | EmptyString, _ => ""
  | String c rest, None =>
      if decide (c = "["%char) then fill rest (Some "") args
      else String c (fill rest None args)
  | String c rest, Some n =>
      if decide (c = "]"%char) then argument n args +:+ fill rest None args
      else fill rest (Some (n +:+ String c "")) args
  end.

Definition tct (template : string) (args : list (string * string)) : string :=
  fill template None args.

(** A comma before every group of three digits, on reversed digits. *)
Fixpoint separate (reversed : string) (seen : nat) : string :=
  match reversed with
  | EmptyString => ""
  | String c rest =>
      if decide (seen = 3%nat) then String ","%char (String c (separate rest 1))
      else String c (separate rest (S seen))
  end.

Definition toLocaleString (n : Z) : string :=
  (if decide (n < 0) then "-" else "")
    +:+ String.rev (separate (String.rev (pretty (Z.abs n))) 0).

End English.

(** A number with thousands separators: its decimal digits with a comma
    before every group of three, as the en-US format writes an integer. *)
Definition with_thousands_separators (n : Z) : string := English.toLocaleString n.

(** ** The other handlers and render functions of the table view *)

(** The [payload] object of [_createColumn]. *)
Module CreatePayload.
Record t : Type := Build {
  aggregation : string;
  field : string;
  fieldname : string;
  width : Z
}.
End CreatePayload.

(** The object given to [trackAnalyticsEvent] by [_createColumn];
    [insert_at_index] is absent in the event for the right end. *)
Module CreateColumnEvent.
Record t : Type := Build {
  eventKey : string;
  eventName : string;
  insert_at_index : option Z;
  organization_id : Val;
  payload : CreatePayload.t
}.
End CreateColumnEvent.

(** The object given to [trackAnalyticsEvent] by [_deleteColumn]. *)
Module DeleteColumnEvent.
Record t : Type := Build {
  eventKey : string;
  eventName : string;
  deleted_at_index : Z;
  organization_id : Val;
  aggregation : string;
  field : string
}.
End DeleteColumnEvent.

(** The object given to [trackAnalyticsEvent] by [onToggleEdit]. *)
Module EditModeEvent.
Record t : Type := Build {
  eventKey : string;
  eventName : string;
  organization_id : Val
}.
End EditModeEvent.

(** What any handler of the component does to the outside, in order:
    the effects of [_updateColumn] and [_moveColumnCommit], and the
    events of the other handlers. *)
Inductive Action : Type :=
| TrackCreateColumn (e : CreateColumnEvent.t)
| TrackDeleteColumn (e : DeleteColumnEvent.t)
| TrackEditMode (e : EditModeEvent.t)
| Do (e : Effect).

(** The icons of the prepended column. *)
Inductive Icon : Type := IconStack | IconEvent.

(** The nodes that [_renderPrependColumns] returns. *)
Inductive PrependNode : Type :=
| HeaderIcon (key : string) (icon : Icon)
| Tooltip (key title : string) (children : PrependNode)
| IconLink (to : Target.t) (data_test_id : string) (icon : Icon).

(** [`${i}`] for an optional row index: an array index, which is
    printed with all its decimal digits. *)
Definition number_text (i : option Z) : string :=
  match i with
  | Some n => pretty n
  | None => "undefined"
  end.

Module TableViewRest.
Section TableViewRest.

(** The imports that these functions call. *)
Variable COL_WIDTH_UNDEFINED : Z.
Variable parseInt : string → Z → Val.
Variable fields : EventView → list Field.t.
Variable withNewColumnAt : EventView → CreatePayload.t → Z → EventView.
Variable withNewColumn : EventView → CreatePayload.t → EventView.
Variable withDeletedColumn : EventView → Z → option MetaType → EventView.
Variable explodeField : option Field.t → option Exploded.t.
Variable getAggregateFields : EventView → list Field.t.
Variable generateEventSlug : option TableDataRow → string.
Variable generateEventDetailsRoute : string → string → string.
Variable t : string → string.
Variable pickRelevantLocationQueryStrings : Location.t → Query.

Variable props : Props.t.

(** [_createColumn]; [insertAt] is [None] for [undefined]. *)
Definition _createColumn (nextColumn : TableColumn.t) (insertAt : option Z)
  : list Action :=
  let location := Props.location props in
  let eventView := Props.eventView props in
  let organization := Props.organization props in
  let payload :=
    CreatePayload.Build (TableColumn.aggregation nextColumn)
                        (TableColumn.field nextColumn)
                        (TableColumn.name nextColumn)
                        COL_WIDTH_UNDEFINED in
  let '(nextEventView, tracked) :=
    match insertAt with
    | Some insertAt =>
        (withNewColumnAt eventView payload insertAt,
         TrackCreateColumn
           (CreateColumnEvent.Build
              "discover_v2.add_column"
              "Discoverv2: Add a new column at an index"
              (Some insertAt)
              (parseInt (Organization.id organization) 10)
              payload))
    | None =>
        (withNewColumn eventView payload,
         TrackCreateColumn
           (CreateColumnEvent.Build
              "discover_v2.add_column.right_end"
              "Discoverv2: Add a new column at the right end of the table"
              None
              (parseInt (Organization.id organization) 10)
              payload))
    end in
  [tracked;
   Do (PushEventViewToLocation location nextEventView
         (pickRelevantLocationQueryStrings location))].

(** [_deleteColumn]; [None] when [explodeField] throws, which is before
    any effect. *)
Definition _deleteColumn (columnIndex : Z) : option (list Action) :=
  let location := Props.location props in
  let eventView := Props.eventView props in
  let tableData := Props.tableData props in
  let organization := Props.organization props in
  prevField ← explodeField (index (fields eventView) columnIndex);
  let tableMeta := tableData ≫= TableData.meta in
  let nextEventView := withDeletedColumn eventView columnIndex tableMeta in
  Some [TrackDeleteColumn
          (DeleteColumnEvent.Build
             "discover_v2.delete_column"
             "Discoverv2: A column was deleted"
             columnIndex
             (parseInt (Organization.id organization) 10)
             (Exploded.aggregation prevField)
             (Exploded.field prevField));
        Do (PushEventViewToLocation location nextEventView
              (pickRelevantLocationQueryStrings location))].

(** [onToggleEdit]. *)
Definition onToggleEdit (isEditing : bool) : list Action :=
  let organization := Props.organization props in
  if isEditing then
    [TrackEditMode
       (EditModeEvent.Build
          "discover_v2.table.column_header.edit_mode.enter"
          "Discoverv2: Enter column header edit mode"
          (parseInt (Organization.id organization) 10))]
  else
    [TrackEditMode
       (EditModeEvent.Build
          "discover_v2.table.column_header.edit_mode.exit"
          "Discoverv2: Exit column header edit mode"
          (parseInt (Organization.id organization) 10))].

(** [_renderPrependColumns]; [dataRow] and [rowIndex] are optional. *)
Definition _renderPrependColumns (isHeader : bool) (dataRow : option TableDataRow)
    (rowIndex : option Z) : list PrependNode :=
  let eventView := Props.eventView props in
  let hasAggregates := bool_decide (0 < length (getAggregateFields eventView))%nat in
  if isHeader then
    [HeaderIcon "header-icon" (if hasAggregates then IconStack else IconEvent)]
  else
    let organization := Props.organization props in
    let location := Props.location props in
    let eventSlug := generateEventSlug dataRow in
    let pathname :=
      generateEventDetailsRoute (Organization.slug organization) eventSlug in
    let target := Target.Build pathname (Location.query location) in
    [Tooltip ("eventlink" +:+ number_text rowIndex) (t "View Details")
       (IconLink target "view-events"
          (if hasAggregates then IconStack else IconEvent))].

(** The [data] that [render] gives to the grid. *)
Definition grid_data : list TableDataRow :=
  match Props.tableData props with
  | Some tableData => TableData.data tableData
  | None => []
  end.

End TableViewRest.
End TableViewRest.

(** Stand-ins for the other imports of the component. *)
Module MoreSamples.

Definition withNewColumnAt (eventView : EventView) (payload : CreatePayload.t)
    (insertAt : Z) : EventView := 4%positive.

Definition withNewColumn (eventView : EventView) (payload : CreatePayload.t)
  : EventView := 5%positive.

(** A deletion that gives the view back as it is. *)
Definition withDeletedColumn (eventView : EventView) (columnIndex : Z)
    (tableMeta : option (gmap string string)) : EventView := eventView.

Definition getAggregateFields (eventView : EventView) : list Field.t :=
  filter (λ f, Field.field f = "count()") (Samples.fields eventView).

(** Views that all have the columns [id] and [count()]. *)
Definition same_fields (eventView : EventView) : list Field.t :=
  [Field.Build "id" (-1); Field.Build "count()" (-1)].

(** An update that gives another view. *)
Definition withUpdatedColumn (eventView : EventView) (columnIndex : Z)
    (payload : Payload.t) (tableMeta : option (gmap string string)) : EventView :=
  2%positive.

End MoreSamples.

(** * Properties *)

(** ** Arrays and the store *)

Module JsArrayFacts.
Import JsArray.

Lemma get_nat (a : list Slot) (i : nat) x :
  a !! i = Some x → get a (Z.of_nat i) = x.
Proof.
  intros Hx. unfold get. case_decide; [lia|].
  by rewrite Nat2Z.id, Hx.
Qed.

Lemma set_in_range (a : list Slot) (i : nat) v :
  (i < length a)%nat → set a (Z.of_nat i) v = <[i := v]> a.
Proof.
  intros Hi. unfold set. repeat case_decide; try lia.
  by rewrite Nat2Z.id.
Qed.

Lemma get_set_eq (a : list Slot) (i : Z) v :
  0 ≤ i < MAX_ARRAY_LENGTH → get (set a i v) i = v.
Proof.
  intros Hi. unfold get, set. repeat case_decide; try lia.
  - rewrite list_lookup_insert_eq by lia. done.
  - rewrite lookup_app_r by lia.
    rewrite lookup_app_r by (rewrite length_replicate; lia).
    rewrite length_replicate.
    replace (Z.to_nat i - length a - (Z.to_nat i - length a))%nat with 0%nat by lia.
    done.
Qed.

(** The spread object is a copy with the flag set. *)
Lemma spread_dragging_copy x : dragging_copy x (spread_isDragging x).
Proof. destruct x as [|c|]; simpl; [done| |done]. by repeat split. Qed.

(** Removing one element at an index of the array. *)
Lemma splice_remove (a : list Slot) (i : nat) x :
  a !! i = Some x → splice a (Z.of_nat i) 1 [] = ([x], delete i a).
Proof.
  intros Hx. pose proof (lookup_lt_Some _ _ _ Hx) as Hlt.
  unfold splice. case_decide; [lia|].
  rewrite Z.min_l by lia. rewrite Z.min_l by lia.
  rewrite Nat2Z.id. simpl (Z.to_nat (1 `max` 0)).
  f_equal.
  - rewrite <-(take_drop_middle a i x Hx) at 1.
    rewrite drop_app_length' by (rewrite length_take; lia). done.
  - rewrite delete_take_drop. simpl. f_equal. f_equal. lia.
Qed.

(** Inserting one element at an index up to the length of the array. *)
Lemma splice_insert (a : list Slot) (d : nat) x :
  (d ≤ length a)%nat →
  splice a (Z.of_nat d) 0 [x] = ([], take d a ++ x :: drop d a).
Proof.
  intros Hd. unfold splice. case_decide; [lia|].
  rewrite Z.min_l by lia. rewrite Z.min_l by lia.
  rewrite Nat2Z.id. simpl. by rewrite Nat.add_0_r.
Qed.
End JsArrayFacts.

Module PreviewFacts.
Import JsArray Store Preview JsArrayFacts.

(** The branch of equal indices writes through the given reference. *)
Lemma run_equal (h : heap) l base i :
  h !! l = Some base →
  generateColumnOrder l (Some i) (Some i) h
  = Some (l, <[l := set base i (spread_isDragging (get base i))]> h).
Proof.
  intros Hl. unfold generateColumnOrder.
  case_decide; [|done].
  unfold mbind, M_bind, mret, M_ret, bind, read, write, ret.
  by rewrite Hl, Hl.
Qed.

(** The branch of different indices works on a new array. *)
Lemma run_differ (h : heap) l base i d :
  h !! l = Some base → d ≠ i →
  generateColumnOrder l (Some i) (Some d) h
  = Some (fresh (dom h), <[fresh (dom h) := next_order base i d]> h).
Proof.
  intros Hl Hne. unfold generateColumnOrder.
  case_decide; [done|].
  unfold mbind, M_bind, mret, M_ret, bind, copy, splice_at, read, write, ret.
  rewrite Hl. unfold next_order.
  rewrite lookup_insert_eq.
  destruct (splice base i 1 []) as [removed a1].
  rewrite lookup_insert_eq.
  destruct (splice a1 d 0 [get removed 0]) as [r2 a2].
  rewrite lookup_insert_eq, lookup_insert_eq.
  by rewrite !insert_insert_eq.
Qed.

Lemma fresh_unused (h : heap) : h !! fresh (dom h) = None.
Proof. apply not_elem_of_dom, is_fresh. Qed.

(** Within the array, the new order is the base without the source
    element, with that element flagged and put in at the destination. *)
Lemma next_order_in_range base (i d : nat) x :
  base !! i = Some x → (d < length base)%nat →
  next_order base (Z.of_nat i) (Z.of_nat d)
  = take d (delete i base) ++ spread_isDragging x :: drop d (delete i base).
Proof.
  intros Hx Hd. pose proof (lookup_lt_Some _ _ _ Hx) as Hi.
  unfold next_order. rewrite (splice_remove _ _ _ Hx).
  assert (Hlen : length (delete i base) = (length base - 1)%nat).
  { rewrite length_delete; [lia|eauto]. }
  replace (get [x] 0) with x by done.
  rewrite splice_insert by lia.
  assert (Hat : (take d (delete i base) ++ x :: drop d (delete i base)) !! d = Some x).
  { rewrite lookup_app_r by (rewrite length_take; lia).
    rewrite length_take. by replace (d - d `min` length (delete i base))%nat with 0%nat by lia. }
  rewrite (get_nat _ _ _ Hat).
  rewrite set_in_range
    by (rewrite length_app, length_take; simpl; rewrite length_drop; lia).
  rewrite insert_app_r_alt by (rewrite length_take; lia).
  rewrite length_take.
  by replace (d - d `min` length (delete i base))%nat with 0%nat by lia.
Qed.

(** The parts of the new order inside the array. *)
Lemma next_order_parts base (i d : nat) x :
  base !! i = Some x → (d < length base)%nat →
  length (next_order base (Z.of_nat i) (Z.of_nat d)) = length base ∧
  next_order base (Z.of_nat i) (Z.of_nat d) !! d = Some (spread_isDragging x) ∧
  delete d (next_order base (Z.of_nat i) (Z.of_nat d)) = delete i base ∧
  <[d := x]> (next_order base (Z.of_nat i) (Z.of_nat d)) ≡ₚ base.
Proof.
  intros Hx Hd. pose proof (lookup_lt_Some _ _ _ Hx) as Hi.
  rewrite (next_order_in_range _ _ _ _ Hx Hd).
  assert (Hlen : length (delete i base) = (length base - 1)%nat).
  { rewrite length_delete; [lia|eauto]. }
  assert (Htake : length (take d (delete i base)) = d).
  { rewrite length_take. lia. }
  split; [|split; [|split]].
  - rewrite length_app. simpl. rewrite Htake, length_drop. lia.
  - rewrite lookup_app_r by lia. rewrite Htake.
    by replace (d - d)%nat with 0%nat by lia.
  - rewrite <-Htake at 1. rewrite delete_middle. apply take_drop.
  - rewrite insert_app_r_alt by lia. rewrite Htake.
    replace (d - d)%nat with 0%nat by lia. simpl.
    rewrite <-Permutation_middle, take_drop.
    symmetry. by apply delete_Permutation.
Qed.

Lemma next_order_relocated base (i d : nat) :
  (i < length base)%nat → (d < length base)%nat →
  relocated base (next_order base (Z.of_nat i) (Z.of_nat d)) i d.
Proof.
  intros Hi Hd.
  destruct (lookup_lt_is_Some_2 base i Hi) as [x Hx].
  destruct (next_order_parts base i d x Hx Hd) as (Hlen & Hat & Hdel & Hperm).
  split; [done|]. exists x, (spread_isDragging x).
  split; [done|]. split; [done|]. split; [apply spread_dragging_copy|done].
Qed.
End PreviewFacts.

(** ** The column order shown during a drag *)

Module PreviewSpec.
Import JsArray Store Preview JsArrayFacts PreviewFacts Samples.

(** C1 (amended).  For source and destination indices that are both
    present, different and inside the base array, [generateColumnOrder]
    returns a new array that has the length of the base array, holds at
    the destination index the element that was at the source index, now
    flagged as dragging, keeps all other elements in their order, and is
    a permutation of the base array up to that flag. *)
Theorem generateColumnOrder_relocates (h : heap) l base (i d : Z) :
  h !! l = Some base →
  0 ≤ i < Z.of_nat (length base) →
  0 ≤ d < Z.of_nat (length base) →
  i ≠ d →
  ∃ l' next,
    generateColumnOrder l (Some i) (Some d) h = Some (l', <[l' := next]> h) ∧
    h !! l' = None ∧
    relocated base next (Z.to_nat i) (Z.to_nat d).
Proof.
  intros Hl Hi Hd Hne.
  exists (fresh (dom h)), (next_order base i d).
  split; [by apply run_differ|]. split; [apply fresh_unused|].
  rewrite <-(Z2Nat.id i) at 1 by lia. rewrite <-(Z2Nat.id d) at 1 by lia.
  apply next_order_relocated; lia.
Qed.

Lemma generateColumnOrder_relocates_witness :
  ∃ l' next,
    generateColumnOrder 1%positive (Some 0) (Some 2) three_columns
    = Some (l', <[l' := next]> three_columns) ∧
    three_columns !! l' = None ∧
    relocated [id_column; title_column; count_column] next
              (Z.to_nat 0) (Z.to_nat 2).
Proof.
  apply (generateColumnOrder_relocates three_columns 1%positive
           [id_column; title_column; count_column] 0 2);
    [reflexivity | simpl; lia | simpl; lia | lia].
Defined.

(** C1 as stated fails for a destination outside the array: dragging
    column 0 of two columns to index 2 gives an array of three slots,
    the last one the object [{isDragging: true}]. *)
Lemma generateColumnOrder_destination_out_of_range :
  generateColumnOrder 1%positive (Some 0) (Some 2) two_columns
  = Some (2%positive,
          <[2%positive := [title_column; id_column; DraggingOnly]]> two_columns) ∧
  length [title_column; id_column; DraggingOnly]
  ≠ length [id_column; title_column] ∧
  ¬ relocated [id_column; title_column]
              [title_column; id_column; DraggingOnly] 0 2.
Proof.
  split; [by vm_compute|]. split; [simpl; lia|].
  intros [Hlen _]. simpl in Hlen. lia.
Qed.

(** C5 (amended).  When either index is absent, [generateColumnOrder]
    returns the base array itself and writes nothing.  When both are
    present, equal and inside the array, it returns the base array with
    the element at that index flagged as dragging: the length and every
    other element are as before. *)
Theorem generateColumnOrder_absent_or_equal (h : heap) l base :
  h !! l = Some base →
  (∀ i d, i = None ∨ d = None → generateColumnOrder l i d h = Some (l, h)) ∧
  (∀ i : Z, 0 ≤ i < Z.of_nat (length base) →
     ∃ next,
       generateColumnOrder l (Some i) (Some i) h = Some (l, <[l := next]> h) ∧
       flagged_only base next (Z.to_nat i)).
Proof.
  intros Hl. split.
  - intros i d [-> | ->]; [by destruct d | by destruct i].
  - intros i Hi.
    exists (set base i (spread_isDragging (get base i))).
    split; [by apply run_equal|].
    destruct (lookup_lt_is_Some_2 base (Z.to_nat i)) as [x Hx]; [lia|].
    rewrite <-(Z2Nat.id i) by lia. rewrite Nat2Z.id.
    rewrite (get_nat _ _ _ Hx), set_in_range by lia.
    split; [apply length_insert|]. split.
    + exists x, (spread_isDragging x). split; [done|].
      split; [apply list_lookup_insert_eq; lia|apply spread_dragging_copy].
    + intros k Hk. by apply list_lookup_insert_ne.
Qed.

Lemma generateColumnOrder_absent_or_equal_witness :
  (∀ i d, i = None ∨ d = None →
     generateColumnOrder 1%positive i d three_columns
     = Some (1%positive, three_columns)) ∧
  (∀ i : Z, 0 ≤ i < Z.of_nat (length [id_column; title_column; count_column]) →
     ∃ next,
       generateColumnOrder 1%positive (Some i) (Some i) three_columns
       = Some (1%positive, <[1%positive := next]> three_columns) ∧
       flagged_only [id_column; title_column; count_column] next (Z.to_nat i)).
Proof.
  apply (generateColumnOrder_absent_or_equal three_columns 1%positive
           [id_column; title_column; count_column]).
  reflexivity.
Defined.

(** C5 as stated fails for equal indices outside the array: with both
    indices 2 on two columns the array grows to three slots. *)
Lemma generateColumnOrder_equal_out_of_range :
  generateColumnOrder 1%positive (Some 2) (Some 2) two_columns
  = Some (1%positive,
          <[1%positive := [id_column; title_column; DraggingOnly]]> two_columns) ∧
  length [id_column; title_column; DraggingOnly]
  ≠ length [id_column; title_column] ∧
  ¬ flagged_only [id_column; title_column]
                 [id_column; title_column; DraggingOnly] 2.
Proof.
  split; [by vm_compute|]. split; [simpl; lia|].
  intros [Hlen _]. simpl in Hlen. lia.
Qed.


End PreviewSpec.

(** ** Reading an array by index *)

Module IndexFacts.

(** Inside the array, [l[i]] is the element at [i]. *)
Lemma index_Some {A} (l : list A) (i : Z) x :
  0 ≤ i → l !! Z.to_nat i = Some x → index l i = Some x.
Proof. intros Hi Hx. unfold index. by rewrite decide_False by lia. Qed.

(** Outside the array, [l[i]] is [undefined]. *)
Lemma index_None {A} (l : list A) (i : Z) :
  i < 0 ∨ Z.of_nat (length l) ≤ i → index l i = None.
Proof.
  intros Hi. unfold index. case_decide; [done|].
  apply lookup_ge_None_2. lia.
Qed.

(** [l[i]] by the list lookup. *)
Lemma index_spec {A} (l : list A) (i : Z) :
  index l i = if decide (0 ≤ i) then l !! Z.to_nat i else None.
Proof. unfold index. repeat case_decide; try lia; done. Qed.

End IndexFacts.

(** ** The handlers and render functions of the table view *)

Module TableViewSpec.
Section Spec.

Variable COL_WIDTH_UNDEFINED : Z.
Variable parseInt : string → Z → Val.
Variable fields : EventView → list Field.t.
Variable withUpdatedColumn : EventView → Z → Payload.t → option MetaType → EventView.
Variable withMovedColumn : EventView → Z → Z → EventView.
Variable explodeField : option Field.t → option Exploded.t.
Variable getAggregateAlias : string → string.
Variable getFieldRenderer :
  string → MetaType → TableDataRow → Organization.t * Location.t → ReactNode.
Variable getExpandedResults : EventView → Query → TableDataRow → EventView.
Variable generateQueryStringObject : EventView → Query.
Variable pickRelevantLocationQueryStrings : Location.t → Query.
Variable props : Props.t.

Local Abbreviation _updateColumn :=
  (TableView._updateColumn COL_WIDTH_UNDEFINED parseInt fields withUpdatedColumn
     explodeField pickRelevantLocationQueryStrings props).
Local Abbreviation _moveColumnCommit :=
  (TableView._moveColumnCommit parseInt fields withMovedColumn explodeField
     pickRelevantLocationQueryStrings props).
Local Abbreviation onDragDone :=
  (TableView.onDragDone parseInt fields withMovedColumn explodeField
     pickRelevantLocationQueryStrings props).
Local Abbreviation _renderGridHeaderCell :=
  (TableView._renderGridHeaderCell getAggregateAlias props).
Local Abbreviation bodyCell_children :=
  (TableView.bodyCell_children getFieldRenderer props).
Local Abbreviation _renderGridBodyCell :=
  (TableView._renderGridBodyCell explodeField getFieldRenderer getExpandedResults
     generateQueryStringObject props).

Local Abbreviation eventView := (Props.eventView props).
Local Abbreviation location := (Props.location props).
Local Abbreviation organization := (Props.organization props).
Local Abbreviation tableMeta := (Props.tableData props ≫= TableData.meta).

(** The descriptor that [_updateColumn] asks the event view for. *)
Local Abbreviation updated columnIndex nextColumn :=
  (withUpdatedColumn eventView columnIndex
     (Payload.Build (TableColumn.aggregation nextColumn)
        (TableColumn.field nextColumn)
        (if decide (TableColumn.width nextColumn = 0)
         then COL_WIDTH_UNDEFINED else TableColumn.width nextColumn))
     tableMeta).

Lemma elem_of_push_if b s changed x :
  x ∈ TableView.push_if b s changed ↔ x ∈ changed ∨ (b = true ∧ x = s).
Proof.
  unfold TableView.push_if. destruct b.
  - rewrite elem_of_app, list_elem_of_singleton.
    split; [intros [?|?]; auto | intros [?|[_ ?]]; auto].
  - split; [auto | intros [?|[? _]]; [done|discriminate]].
Qed.

(** C3.  The header cell is right-aligned for the tags number, duration
    and integer and left-aligned for the others, except that for the
    tags never and * it is right-aligned exactly when the metadata gives
    the column's aggregate alias the type integer or number (so it is
    left-aligned without metadata). *)
Theorem renderGridHeaderCell_alignment (column : TableColumn.t) :
  ∃ p,
    _renderGridHeaderCell column = SortLink p ∧
    (SortLinkProps.align p = Alignments.right ∨
     SortLinkProps.align p = Alignments.left) ∧
    (TableColumn.type column ≠ "never" → TableColumn.type column ≠ "*" →
     (SortLinkProps.align p = Alignments.right ↔
      TableColumn.type column ∈ ["number"; "duration"; "integer"])) ∧
    (TableColumn.type column = "never" ∨ TableColumn.type column = "*" →
     (SortLinkProps.align p = Alignments.right ↔
      ∃ meta maybeType,
        tableMeta = Some meta ∧
        meta !! getAggregateAlias (Field.field (TableColumn.eventViewField column))
        = Some maybeType ∧
        (maybeType = "integer" ∨ maybeType = "number"))).
Proof.
  eexists. split; [reflexivity|]. simpl. unfold TableView.header_align.
  split; [|split].
  - repeat case_decide; auto.
  - intros Hn Hs. rewrite decide_False by tauto.
    case_decide; split; try done.
  - intros Hty. cbv zeta.
    assert (Hnot : TableColumn.type column ∉ ["number"; "duration"; "integer"]).
    { intros Hin.
      repeat (apply elem_of_cons in Hin as [Hin|Hin];
              [destruct Hty as [Ht|Ht]; rewrite Ht in Hin; discriminate|]).
      by apply elem_of_nil in Hin. }
    rewrite (decide_False (P := _ ∈ _)) by done.
    rewrite decide_True by done.
    destruct (Props.tableData props ≫= TableData.meta) as [meta|].
    + case_decide as Hm; (split; [intros Ha|intros (m & ty & [= <-] & Hty' & Hor)]).
      * destruct Hm as [Hm|Hm]; eauto 10.
      * done.
      * done.
      * destruct Hm. rewrite Hty'. destruct Hor as [-> | ->]; auto.
    + case_decide as Hm; (split; [intros Ha|intros (m & ty & [=] & _)]).
      * destruct Hm as [Hm|Hm]; discriminate.
      * done.
Qed.

(** C4.  [_updateColumn] tracks an event only when the updated
    descriptor is another object than the given one; the [changed] list
    of that event holds "aggregate", "field" and "width" exactly when
    the aggregation, the field and the width differ between the
    exploded field at the column index of the given descriptor and the
    one at that index of the updated descriptor, each on its own. *)
Theorem updateColumn_changed (columnIndex : Z) (nextColumn : TableColumn.t) :
  (updated columnIndex nextColumn = eventView →
   _updateColumn columnIndex nextColumn
   = Some [PushEventViewToLocation location eventView
             (pickRelevantLocationQueryStrings location)]) ∧
  (updated columnIndex nextColumn ≠ eventView →
   ∀ prevColumn nextColumn' prevField nextField,
     0 ≤ columnIndex →
     fields eventView !! Z.to_nat columnIndex = Some prevColumn →
     fields (updated columnIndex nextColumn) !! Z.to_nat columnIndex
     = Some nextColumn' →
     explodeField (Some prevColumn) = Some prevField →
     explodeField (Some nextColumn') = Some nextField →
     ∃ e,
       _updateColumn columnIndex nextColumn
       = Some [TrackUpdateColumn e;
               PushEventViewToLocation location (updated columnIndex nextColumn)
                 (pickRelevantLocationQueryStrings location)] ∧
       UpdateColumnEvent.eventKey e = "discover_v2.update_column" ∧
       ("aggregate" ∈ UpdateColumnEvent.changed e ↔
        Exploded.aggregation prevField ≠ Exploded.aggregation nextField) ∧
       ("field" ∈ UpdateColumnEvent.changed e ↔
        Exploded.field prevField ≠ Exploded.field nextField) ∧
       ("width" ∈ UpdateColumnEvent.changed e ↔
        Exploded.width prevField ≠ Exploded.width nextField)) ∧
  (∀ effects e,
     _updateColumn columnIndex nextColumn = Some effects →
     TrackUpdateColumn e ∈ effects →
     updated columnIndex nextColumn ≠ eventView).
Proof.
  unfold TableView._updateColumn. split; [|split].
  - intros Heq. rewrite (decide_False (P := _ ≠ _)) by (intros Hne; by apply Hne).
    simpl. by rewrite Heq.
  - intros Hne prevColumn nextColumn' prevField nextField Hi Hpc Hnc Hprev Hnext.
    rewrite (decide_True (P := _ ≠ _)) by done.
    rewrite (IndexFacts.index_Some _ _ _ Hi Hpc), Hprev. simpl.
    rewrite (IndexFacts.index_Some _ _ _ Hi Hnc), Hnext. simpl.
    eexists. split; [reflexivity|]. simpl. split; [done|].
    rewrite !elem_of_push_if, !elem_of_nil, !bool_decide_eq_true.
    repeat split; intuition congruence.
  - intros effects e Hrun Hin Heq.
    rewrite (decide_False (P := _ ≠ _)) in Hrun by (intros Hne; by apply Hne).
    simpl in Hrun. injection Hrun as <-.
    apply list_elem_of_singleton in Hin. discriminate Hin.
Qed.

(** C6.  On the end of a drag, [_moveColumnCommit] runs exactly when
    both indices are numbers and differ, and its event carries the two
    indices and the aggregation and field of the moved column, that is
    of the exploded field at the dragging index of the event view;
    otherwise nothing is tracked or pushed, and nothing is thrown. *)
Theorem onDragDone_commits (draggingColumnIndex destinationColumnIndex : option Z) :
  (∀ i j,
     draggingColumnIndex = Some i → destinationColumnIndex = Some j → i ≠ j →
     onDragDone draggingColumnIndex destinationColumnIndex = _moveColumnCommit i j ∧
     ∀ movedColumn prevField,
       0 ≤ i →
       fields eventView !! Z.to_nat i = Some movedColumn →
       explodeField (Some movedColumn) = Some prevField →
       ∃ e,
         _moveColumnCommit i j
         = Some [TrackMoveColumn e;
                 PushEventViewToLocation location (withMovedColumn eventView i j)
                   (pickRelevantLocationQueryStrings location)] ∧
         MoveColumnEvent.eventKey e = "discover_v2.move_column" ∧
         MoveColumnEvent.from_index e = i ∧
         MoveColumnEvent.to_index e = j ∧
         MoveColumnEvent.aggregation e = Exploded.aggregation prevField ∧
         MoveColumnEvent.field e = Exploded.field prevField) ∧
  (onDragDone draggingColumnIndex destinationColumnIndex = Some [] ↔
   ¬ ∃ i j,
       draggingColumnIndex = Some i ∧ destinationColumnIndex = Some j ∧ i ≠ j).
Proof.
  assert (Hcommit : ∀ i j, _moveColumnCommit i j ≠ Some []).
  { intros i j. unfold TableView._moveColumnCommit.
    destruct (explodeField _); simpl; discriminate. }
  split.
  - intros i j -> -> Hne. split.
    + unfold TableView.onDragDone. by rewrite decide_True.
    + intros movedColumn prevField Hi Hmoved Hprev.
      unfold TableView._moveColumnCommit.
      rewrite (IndexFacts.index_Some _ _ _ Hi Hmoved), Hprev. simpl. eexists. split; [reflexivity|]. done.
  - unfold TableView.onDragDone.
    destruct draggingColumnIndex as [i|], destinationColumnIndex as [j|];
      try (split; [intros _ (? & ? & ? & ? & ?); discriminate | done]).
    case_decide as Hij.
    + split; [intros Hrun; by apply Hcommit in Hrun|].
      intros Hnot. destruct Hnot. eauto.
    + split; [|done]. intros _ (? & ? & [= <-] & [= <-] & Hne). by apply Hne.
Qed.

(** C7.  Without result metadata [_renderGridBodyCell] returns the value
    of the row at the column key as it is.  With metadata the cell is
    what the field renderer of the column gives, inside a link to the
    expanded query of the row exactly when the exploded aggregation of
    the column is "count", and inside a plain fragment otherwise. *)
Theorem renderGridBodyCell_link (column : TableColumn.t) (dataRow : TableDataRow) :
  (tableMeta = None →
   _renderGridBodyCell column dataRow
   = Some (CellValue (dataRow !! TableColumn.key column))) ∧
  (∀ meta exploded,
     tableMeta = Some meta →
     explodeField (Some (TableColumn.eventViewField column)) = Some exploded →
     (Exploded.aggregation exploded = "count" →
      _renderGridBodyCell column dataRow
      = Some (BaseLink
                (Target.Build (Location.pathname location)
                   (generateQueryStringObject
                      (getExpandedResults eventView ∅ dataRow)))
                (getFieldRenderer (TableColumn.key column) meta dataRow
                   (organization, location)))) ∧
     (Exploded.aggregation exploded ≠ "count" →
      _renderGridBodyCell column dataRow
      = Some (Fragment
                (getFieldRenderer (TableColumn.key column) meta dataRow
                   (organization, location))))).
Proof.
  unfold TableView._renderGridBodyCell. split.
  - by intros ->.
  - intros meta exploded Hmeta Hex. rewrite Hmeta.
    unfold TableView.ExpandAggregateRow. rewrite Hex. simpl.
    split; intros Hagg.
    + by rewrite decide_True.
    + by rewrite decide_False.
Qed.

(** C9.  The children function of [_renderGridBodyCell] gives the same
    content whether the cell will expand or not: the renderer looked up
    by the column key and the metadata, applied to the row and to the
    organization and location.  The two ways of rendering a cell differ
    only in the link around that content. *)
Theorem bodyCell_children_same (column : TableColumn.t) (dataRow : TableDataRow)
    (meta : MetaType) :
  (∀ willExpand,
     bodyCell_children column dataRow meta willExpand
     = getFieldRenderer (TableColumn.key column) meta dataRow
         (organization, location)) ∧
  bodyCell_children column dataRow meta true
  = bodyCell_children column dataRow meta false ∧
  (∀ exploded,
     tableMeta = Some meta →
     explodeField (Some (TableColumn.eventViewField column)) = Some exploded →
     ∃ wrap : ReactNode → ReactNode,
       _renderGridBodyCell column dataRow
       = Some (wrap (bodyCell_children column dataRow meta false)) ∧
       ((Exploded.aggregation exploded = "count" ∧ ∃ target, wrap = BaseLink target) ∨
        (Exploded.aggregation exploded ≠ "count" ∧ wrap = Fragment))).
Proof.
  split; [by intros []|]. split; [done|].
  intros exploded Hmeta Hex.
  unfold TableView._renderGridBodyCell, TableView.ExpandAggregateRow.
  rewrite Hmeta, Hex. simpl. case_decide.
  - eexists. split; [reflexivity|]. left. eauto.
  - eexists. split; [reflexivity|]. by right.
Qed.

End Spec.

(** The table of [id] and [count()]: a drag of column 0 to column 1 is
    committed with its telemetry, a drop on the same column is not. *)
Example onDragDone_moves_id :
  TableView.onDragDone Samples.parseInt Samples.fields Samples.withMovedColumn
    Samples.explodeField Samples.pickRelevantLocationQueryStrings Samples.props
    (Some 0) (Some 1)
  = Some [TrackMoveColumn
            (MoveColumnEvent.Build "discover_v2.move_column"
               "Discoverv2: A column was moved" 0 1 (Num 42) "" "id");
          PushEventViewToLocation Samples.location 2%positive ∅].
Proof. vm_compute. reflexivity. Qed.

Example onDragDone_same_column :
  TableView.onDragDone Samples.parseInt Samples.fields Samples.withMovedColumn
    Samples.explodeField Samples.pickRelevantLocationQueryStrings Samples.props
    (Some 1) (Some 1)
  = Some [].
Proof. reflexivity. Qed.

Example header_align_samples :
  TableView.header_align Samples.getAggregateAlias Samples.props
    (Samples.column "count()" "never") = Alignments.right ∧
  TableView.header_align Samples.getAggregateAlias Samples.props_without_data
    (Samples.column "count()" "never") = Alignments.left ∧
  TableView.header_align Samples.getAggregateAlias Samples.props
    (Samples.column "id" "string") = Alignments.left ∧
  TableView.header_align Samples.getAggregateAlias Samples.props
    (Samples.column "duration" "duration") = Alignments.right.
Proof. vm_compute. done. Qed.

Example bodyCell_samples :
  TableView._renderGridBodyCell Samples.explodeField Samples.getFieldRenderer
    Samples.getExpandedResults Samples.generateQueryStringObject Samples.props
    (Samples.column "count()" "number") Samples.row
  = Some (BaseLink
            (Target.Build "/organizations/acme/eventsv2/" {[ "field" := "id" ]})
            (CellValue (Some (Num 7)))) ∧
  TableView._renderGridBodyCell Samples.explodeField Samples.getFieldRenderer
    Samples.getExpandedResults Samples.generateQueryStringObject Samples.props
    (Samples.column "id" "string") Samples.row
  = Some (Fragment (CellValue (Some (Str "abc")))) ∧
  TableView._renderGridBodyCell Samples.explodeField Samples.getFieldRenderer
    Samples.getExpandedResults Samples.generateQueryStringObject
    Samples.props_without_data (Samples.column "id" "string") Samples.row
  = Some (CellValue (Some (Str "abc"))).
Proof. vm_compute. done. Qed.
End TableViewSpec.

(** ** The rate-limit form *)

Module RateLimitSpec.
Import RateLimit.

(** C2.  The table of rate-limit steps is 0, then 1000 to 9000 in steps
    of 1000, then 10000 to 90000 in steps of 10000, then 100000 to
    1000000 in steps of 100000: strictly ascending, from 0 to exactly
    1000000.  It is one constant, which every rendering of the form
    gives to the account slider. *)
Theorem rate_limit_values :
  ACCOUNT_RATE_LIMIT_VALUES
  = 0 :: ((λ k, k * 1000) <$> seqZ 1 9)
      ++ ((λ k, k * 10000) <$> seqZ 1 9)
      ++ ((λ k, k * 100000) <$> seqZ 1 10) ∧
  StronglySorted Z.lt ACCOUNT_RATE_LIMIT_VALUES ∧
  head ACCOUNT_RATE_LIMIT_VALUES = Some 0 ∧
  last ACCOUNT_RATE_LIMIT_VALUES = Some 1000000 ∧
  ACCOUNT_RATE_LIMIT_VALUES = getRateLimitValues ∧
  ∀ t tct toLocaleString,
    RangeField.allowedValues (accountRateLimit t tct toLocaleString)
    = Some ACCOUNT_RATE_LIMIT_VALUES.
Proof.
  assert (Hvalues : ACCOUNT_RATE_LIMIT_VALUES
                    = [0; 1000; 2000; 3000; 4000; 5000; 6000; 7000; 8000; 9000;
                       10000; 20000; 30000; 40000; 50000; 60000; 70000; 80000;
                       90000; 100000; 200000; 300000; 400000; 500000; 600000;
                       700000; 800000; 900000; 1000000]).
  { vm_compute. reflexivity. }
  split; [rewrite Hvalues; vm_compute; reflexivity|].
  split; [rewrite Hvalues; apply (bool_decide_unpack _); vm_compute; exact I|].
  split; [rewrite Hvalues; reflexivity|].
  split; [rewrite Hvalues; reflexivity|].
  split; [reflexivity|].
  intros t tct toLocaleString. reflexivity.
Qed.

(** C8.  With the English strings and the en-US number format, the
    account label is "No Limit" for a value that is unset or 0 and
    otherwise the value with thousands separators followed by
    " per hour"; the project label is "No Limit — 100%" (as inner HTML
    with the entity of the dash) for exactly 100 and otherwise the number
    followed by "%", so "75%" for 75.  The numbers are the safe integers;
    beyond them the project label is what [toString] prints, followed by
    "%". *)
Theorem formatLabel_labels (t : string → string)
    (tct : string → list (string * string) → string)
    (toLocaleString toString : Z → string) :
  (∀ s, t s = s) →
  (∀ number, tct "[number] per hour" [("number", number)] = number +:+ " per hour") →
  (∀ n, Z.abs n ≤ MAX_SAFE_INTEGER →
        toLocaleString n = with_thousands_separators n) →
  (∀ value, falsy value = true →
     accountRateLimit_formatLabel t tct toLocaleString value = LabelText "No Limit") ∧
  falsy None = true ∧ falsy (Some 0) = true ∧
  (∀ n, n ≠ 0 → Z.abs n ≤ MAX_SAFE_INTEGER →
     accountRateLimit_formatLabel t tct toLocaleString (Some n)
     = LabelText (with_thousands_separators n +:+ " per hour")) ∧
  accountRateLimit_formatLabel t tct toLocaleString (Some 1000)
  = LabelText "1,000 per hour" ∧
  accountRateLimit_formatLabel t tct toLocaleString (Some 1000000)
  = LabelText "1,000,000 per hour" ∧
  (∃ html,
     projectRateLimit_formatLabel t toString (Some 100) = LabelHtml html ∧
     html = "No Limit &mdash; 100%" ∧
     shown_text html = "No Limit — 100%") ∧
  (∀ n, n ≠ 100 → Z.abs n ≤ MAX_SAFE_INTEGER →
     projectRateLimit_formatLabel t toString (Some n) = LabelText (pretty n +:+ "%")) ∧
  (∀ n, MAX_SAFE_INTEGER < Z.abs n →
     projectRateLimit_formatLabel t toString (Some n)
     = LabelText (toString n +:+ "%")) ∧
  projectRateLimit_formatLabel t toString (Some 75) = LabelText "75%".
Proof.
  intros Ht Htct Hlocale.
  assert (Haccount : ∀ n, n ≠ 0 → Z.abs n ≤ MAX_SAFE_INTEGER →
            accountRateLimit_formatLabel t tct toLocaleString (Some n)
            = LabelText (with_thousands_separators n +:+ " per hour")).
  { intros n Hn Hsafe. unfold accountRateLimit_formatLabel. simpl.
    rewrite bool_decide_eq_false_2 by done. by rewrite Htct, Hlocale. }
  assert (Hproject : ∀ n, n ≠ 100 → Z.abs n ≤ MAX_SAFE_INTEGER →
            projectRateLimit_formatLabel t toString (Some n)
            = LabelText (pretty n +:+ "%")).
  { intros n Hn Hsafe. unfold projectRateLimit_formatLabel, template.
    rewrite (decide_True (P := _ ≠ _)) by (by intros [= ->]).
    by rewrite decide_True. }
  split; [|split; [done|split; [done|split; [done|]]]].
  { intros value Hfalsy. unfold accountRateLimit_formatLabel.
    by rewrite Hfalsy, Ht. }
  split; [rewrite Haccount by (unfold MAX_SAFE_INTEGER; lia); vm_compute; reflexivity|].
  split; [rewrite Haccount by (unfold MAX_SAFE_INTEGER; lia); vm_compute; reflexivity|].
  split.
  { exists "No Limit &mdash; 100%".
    split; [|split]; [|done|vm_compute; reflexivity].
    unfold projectRateLimit_formatLabel.
    rewrite decide_False by (by intros Hne). by rewrite Ht. }
  split; [done|]. split.
  - intros n Hn. unfold projectRateLimit_formatLabel, template.
    rewrite (decide_True (P := _ ≠ _))
      by (intros [= ->]; unfold MAX_SAFE_INTEGER in Hn; lia).
    by rewrite decide_False by lia.
  - rewrite Hproject by (unfold MAX_SAFE_INTEGER; lia). vm_compute. reflexivity.
Qed.

Lemma formatLabel_labels_witness :
  (∀ value, falsy value = true →
     accountRateLimit_formatLabel English.t English.tct English.toLocaleString value
     = LabelText "No Limit") ∧
  falsy None = true ∧ falsy (Some 0) = true ∧
  (∀ n, n ≠ 0 → Z.abs n ≤ MAX_SAFE_INTEGER →
     accountRateLimit_formatLabel English.t English.tct English.toLocaleString (Some n)
     = LabelText (with_thousands_separators n +:+ " per hour")) ∧
  accountRateLimit_formatLabel English.t English.tct English.toLocaleString (Some 1000)
  = LabelText "1,000 per hour" ∧
  accountRateLimit_formatLabel English.t English.tct English.toLocaleString
    (Some 1000000)
  = LabelText "1,000,000 per hour" ∧
  (∃ html,
     projectRateLimit_formatLabel English.t pretty (Some 100) = LabelHtml html ∧
     html = "No Limit &mdash; 100%" ∧
     shown_text html = "No Limit — 100%") ∧
  (∀ n, n ≠ 100 → Z.abs n ≤ MAX_SAFE_INTEGER →
     projectRateLimit_formatLabel English.t pretty (Some n)
     = LabelText (pretty n +:+ "%")) ∧
  (∀ n, MAX_SAFE_INTEGER < Z.abs n →
     projectRateLimit_formatLabel English.t pretty (Some n)
     = LabelText (pretty n +:+ "%")) ∧
  projectRateLimit_formatLabel English.t pretty (Some 75) = LabelText "75%".
Proof.
  apply (formatLabel_labels English.t English.tct English.toLocaleString pretty);
    reflexivity.
Defined.

Example account_label_1000 :
  accountRateLimit_formatLabel English.t English.tct English.toLocaleString
    (Some 1000) = LabelText "1,000 per hour".
Proof. by vm_compute. Qed.

Example account_label_million :
  accountRateLimit_formatLabel English.t English.tct English.toLocaleString
    (Some 1000000) = LabelText "1,000,000 per hour".
Proof. by vm_compute. Qed.
End RateLimitSpec.

(** ** More on the column order shown during a drag *)

Module PreviewMore.
Import JsArray Store Preview JsArrayFacts PreviewFacts Samples.

Lemma spread_isDragging_idemp x :
  spread_isDragging (spread_isDragging x) = spread_isDragging x.
Proof. by destruct x. Qed.

(** Where each slot of the new order comes from. *)
Lemma next_order_lookup base (i d k : nat) x :
  base !! i = Some x → (d < length base)%nat →
  next_order base (Z.of_nat i) (Z.of_nat d) !! k
  = if decide (k = d) then Some (spread_isDragging x)
    else if decide (k < d)%nat then delete i base !! k
    else delete i base !! (k - 1)%nat.
Proof.
  intros Hx Hd. pose proof (lookup_lt_Some _ _ _ Hx) as Hi.
  rewrite (next_order_in_range _ _ _ _ Hx Hd).
  assert (Hlen : length (delete i base) = (length base - 1)%nat).
  { rewrite length_delete; [lia|eauto]. }
  assert (Htake : length (take d (delete i base)) = d).
  { rewrite length_take. lia. }
  repeat case_decide.
  - subst k. rewrite lookup_app_r by lia. rewrite Htake.
    by replace (d - d)%nat with 0%nat by lia.
  - rewrite lookup_app_l by lia. by apply lookup_take_lt.
  - rewrite lookup_app_r by lia. rewrite Htake.
    destruct (k - d)%nat as [|n] eqn:Hk; [lia|]. simpl.
    rewrite lookup_drop. f_equal. lia.
Qed.

(** X1.  Inside the array, a preview leaves the columns before and after
    the span between source and destination at their index and shifts
    the columns of the span by one index towards the source. *)
Theorem generateColumnOrder_positions (h : heap) l base (i d : Z) :
  h !! l = Some base →
  0 ≤ i < Z.of_nat (length base) →
  0 ≤ d < Z.of_nat (length base) →
  i ≠ d →
  ∃ l' next,
    generateColumnOrder l (Some i) (Some d) h = Some (l', <[l' := next]> h) ∧
    ∀ k : nat,
      (Z.of_nat k < Z.min i d ∨ Z.max i d < Z.of_nat k → next !! k = base !! k) ∧
      (i ≤ Z.of_nat k < d → next !! k = base !! S k) ∧
      (d < Z.of_nat k ≤ i → next !! k = base !! (k - 1)%nat).
Proof.
  intros Hl Hi Hd Hne.
  exists (fresh (dom h)), (next_order base i d).
  split; [by apply run_differ|]. intros k.
  destruct (lookup_lt_is_Some_2 base (Z.to_nat i)) as [x Hx]; [lia|].
  replace (next_order base i d)
    with (next_order base (Z.of_nat (Z.to_nat i)) (Z.of_nat (Z.to_nat d)))
    by (by rewrite !Z2Nat.id by lia).
  rewrite (next_order_lookup _ _ _ _ _ Hx) by lia.
  split; [|split].
  - intros [Hk | Hk]; repeat case_decide; try lia.
    + apply list_lookup_delete_lt. lia.
    + rewrite list_lookup_delete_ge by lia. f_equal. lia.
  - intros Hk. repeat case_decide; try lia.
    apply list_lookup_delete_ge. lia.
  - intros Hk. repeat case_decide; try lia.
    apply list_lookup_delete_lt. lia.
Qed.

Lemma generateColumnOrder_positions_witness :
  ∃ l' next,
    generateColumnOrder 1%positive (Some 0) (Some 2) three_columns
    = Some (l', <[l' := next]> three_columns) ∧
    ∀ k : nat,
      (Z.of_nat k < Z.min 0 2 ∨ Z.max 0 2 < Z.of_nat k →
       next !! k = [id_column; title_column; count_column] !! k) ∧
      (0 ≤ Z.of_nat k < 2 →
       next !! k = [id_column; title_column; count_column] !! S k) ∧
      (2 < Z.of_nat k ≤ 0 →
       next !! k = [id_column; title_column; count_column] !! (k - 1)%nat).
Proof.
  apply (generateColumnOrder_positions three_columns 1%positive
           [id_column; title_column; count_column] 0 2);
    [reflexivity | simpl; lia | simpl; lia | lia].
Defined.

(** Moving an element away and back, on the elements. *)
Lemma next_order_back base (i d : nat) x :
  base !! i = Some x → (d < length base)%nat →
  next_order (next_order base (Z.of_nat i) (Z.of_nat d)) (Z.of_nat d) (Z.of_nat i)
  = <[i := spread_isDragging x]> base.
Proof.
  intros Hx Hd. pose proof (lookup_lt_Some _ _ _ Hx) as Hi.
  destruct (next_order_parts base i d x Hx Hd) as (Hlen & Hat & Hdel & _).
  rewrite (next_order_in_range _ d i _ Hat) by lia.
  rewrite Hdel, spread_isDragging_idemp.
  rewrite delete_take_drop, insert_take_drop by done.
  assert (Htake : length (take i base) = i) by (rewrite length_take; lia).
  rewrite take_app_length' by done.
  by rewrite drop_app_length' by done.
Qed.

(** X2.  Inside the array, a preview from [i] to [d] followed by a
    preview of its result from [d] back to [i] shows the base order with
    the element at [i] flagged, which is what a preview with both
    indices [i] shows; both previews are new arrays. *)
Theorem generateColumnOrder_back (h : heap) l base (i d : Z) :
  h !! l = Some base →
  0 ≤ i < Z.of_nat (length base) →
  0 ≤ d < Z.of_nat (length base) →
  i ≠ d →
  ∃ l1 next l2,
    generateColumnOrder l (Some i) (Some d) h = Some (l1, <[l1 := next]> h) ∧
    generateColumnOrder l1 (Some d) (Some i) (<[l1 := next]> h)
    = Some (l2, <[l2 := set base i (spread_isDragging (get base i))]>
                  (<[l1 := next]> h)) ∧
    l1 ≠ l ∧ l2 ≠ l ∧ l2 ≠ l1.
Proof.
  intros Hl Hi Hd Hne.
  set (l1 := fresh (dom h)). set (next := next_order base i d).
  set (h1 := <[l1 := next]> h).
  exists l1, next, (fresh (dom h1)).
  pose proof (fresh_unused h) as Hfresh. pose proof (fresh_unused h1) as Hfresh1.
  assert (Hl1 : h1 !! l1 = Some next) by apply lookup_insert_eq.
  split; [by apply run_differ|]. split; [|split; [|split]].
  - rewrite (run_differ (<[l1 := next]> h) l1 next d i) by done.
    fold h1. do 2 f_equal.
    destruct (lookup_lt_is_Some_2 base (Z.to_nat i)) as [x Hx]; [lia|].
    unfold next.
    replace (next_order (next_order base i d) d i)
      with (next_order (next_order base (Z.of_nat (Z.to_nat i)) (Z.of_nat (Z.to_nat d)))
              (Z.of_nat (Z.to_nat d)) (Z.of_nat (Z.to_nat i)))
      by (by rewrite !Z2Nat.id by lia).
    rewrite (next_order_back _ _ _ _ Hx) by lia.
    replace (set base i (spread_isDragging (get base i)))
      with (set base (Z.of_nat (Z.to_nat i))
              (spread_isDragging (get base (Z.of_nat (Z.to_nat i)))))
      by (by rewrite !Z2Nat.id by lia).
    rewrite (get_nat _ _ _ Hx). by rewrite set_in_range by lia.
  - intros Heq. fold l1 in Hfresh. rewrite Heq in Hfresh. congruence.
  - intros Heq. rewrite Heq in Hfresh1. unfold h1 in Hfresh1.
    rewrite lookup_insert_ne in Hfresh1; [congruence|].
    intros Heq'. fold l1 in Hfresh. rewrite Heq' in Hfresh. congruence.
  - intros Heq. rewrite Heq in Hfresh1. congruence.
Qed.

Lemma generateColumnOrder_back_witness :
  ∃ l1 next l2,
    generateColumnOrder 1%positive (Some 0) (Some 2) three_columns
    = Some (l1, <[l1 := next]> three_columns) ∧
    generateColumnOrder l1 (Some 2) (Some 0) (<[l1 := next]> three_columns)
    = Some (l2, <[l2 := set [id_column; title_column; count_column] 0
                          (spread_isDragging
                             (get [id_column; title_column; count_column] 0))]>
                  (<[l1 := next]> three_columns)) ∧
    l1 ≠ 1%positive ∧ l2 ≠ 1%positive ∧ l2 ≠ l1.
Proof.
  apply (generateColumnOrder_back three_columns 1%positive
           [id_column; title_column; count_column] 0 2);
    [reflexivity | simpl; lia | simpl; lia | lia].
Defined.

Lemma set_beyond (a : list Slot) (i : Z) v :
  Z.of_nat (length a) ≤ i → MAX_ARRAY_LENGTH ≤ i → set a i v = a.
Proof.
  intros Hlen Hidx. unfold set. repeat case_decide; try lia; done.
Qed.

Lemma set_set_eq (a : list Slot) (i : Z) v : set (set a i v) i v = set a i v.
Proof.
  destruct (decide (i < 0)) as [Hneg|Hneg].
  { unfold set. by rewrite !(decide_True (P := i < 0)). }
  destruct (decide (i < Z.of_nat (length a))) as [Hlt|Hlt].
  - assert (set a i v = <[Z.to_nat i := v]> a) as ->.
    { unfold set. by rewrite (decide_False (P := i < 0)), decide_True. }
    unfold set. rewrite (decide_False (P := i < 0)) by done.
    rewrite decide_True by (by rewrite length_insert).
    apply list_insert_insert_eq.
  - destruct (decide (i < MAX_ARRAY_LENGTH)) as [Hidx|Hidx].
    + assert (set a i v
              = (a ++ replicate (Z.to_nat i - length a)%nat Undefined) ++ [v]) as ->.
      { unfold set. rewrite (decide_False (P := i < 0)) by done.
        rewrite (decide_False (P := i < Z.of_nat (length a))) by done.
        rewrite decide_True by done. apply app_assoc. }
      assert (Hlen : length (a ++ replicate (Z.to_nat i - length a)%nat Undefined)
                     = Z.to_nat i).
      { rewrite length_app, length_replicate. lia. }
      unfold set. rewrite (decide_False (P := i < 0)) by done.
      rewrite decide_True by (rewrite length_app, Hlen; simpl; lia).
      rewrite insert_app_r_alt by lia. by rewrite Hlen, Nat.sub_diag.
    + rewrite (set_beyond a) by lia. apply set_beyond; lia.
Qed.

(** X3.  A preview with equal indices that are not negative, run again
    on the store that the first run leaves, changes nothing more: the
    reference and the store are those of the first run, also for an
    index beyond the end. *)
Theorem generateColumnOrder_equal_twice (h : heap) l base (i : Z) :
  h !! l = Some base →
  0 ≤ i →
  ∃ h1,
    generateColumnOrder l (Some i) (Some i) h = Some (l, h1) ∧
    generateColumnOrder l (Some i) (Some i) h1 = Some (l, h1).
Proof.
  intros Hl Hi. eexists. split; [by apply run_equal|].
  rewrite (run_equal _ l (set base i (spread_isDragging (get base i))))
    by apply lookup_insert_eq.
  rewrite insert_insert_eq. do 3 f_equal.
  destruct (decide (i < MAX_ARRAY_LENGTH)) as [Hidx|Hidx].
  - rewrite get_set_eq by lia. rewrite spread_isDragging_idemp.
    apply set_set_eq.
  - destruct (decide (i < Z.of_nat (length base))) as [Hlt|Hlt].
    + destruct (lookup_lt_is_Some_2 base (Z.to_nat i)) as [x Hx]; [lia|].
      remember (Z.to_nat i) as n eqn:Hn.
      assert (i = Z.of_nat n) as Hi' by lia. rewrite Hi'.
      assert (n < length base)%nat by lia.
      rewrite (get_nat _ _ _ Hx), (set_in_range base) by done.
      rewrite (get_nat _ n (spread_isDragging x))
        by (by apply list_lookup_insert_eq).
      rewrite spread_isDragging_idemp.
      rewrite set_in_range by (by rewrite length_insert).
      apply list_insert_insert_eq.
    + rewrite (set_beyond base) by lia. by rewrite (set_beyond base) by lia.
Qed.

Lemma generateColumnOrder_equal_twice_witness :
  ∃ h1,
    generateColumnOrder 1%positive (Some 5) (Some 5) two_columns
    = Some (1%positive, h1) ∧
    generateColumnOrder 1%positive (Some 5) (Some 5) h1 = Some (1%positive, h1).
Proof.
  apply (generateColumnOrder_equal_twice two_columns 1%positive
           [id_column; title_column] 5);
    [reflexivity | lia].
Defined.

(** A splice keeps what it does not remove, and adds the new elements. *)
Lemma splice_Permutation (a : list Slot) start deleteCount items :
  (splice a start deleteCount items).1 ++ (splice a start deleteCount items).2
  ≡ₚ a ++ items.
Proof.
  unfold splice. simpl.
  set (c := Z.to_nat _). set (s := Z.to_nat _).
  assert (Ha : a = take s a ++ take c (drop s a) ++ drop (s + c) a).
  { by rewrite <-drop_drop, !take_drop. }
  remember (take s a) as t1. remember (take c (drop s a)) as t2.
  remember (drop (s + c) a) as t3.
  rewrite Ha at 1. rewrite <-!(assoc_L (++)).
  rewrite (Permutation_app_comm items t3).
  apply Permutation_app_swap_app.
Qed.

(** Removing at most one element: nothing, or the one removed. *)
Lemma splice_one (a : list Slot) start :
  ∃ removed a1,
    splice a start 1 [] = (removed, a1) ∧
    (removed = [] ∨ ∃ x, removed = [x]) ∧
    removed ++ a1 ≡ₚ a ∧
    (length removed + length a1 = length a)%nat.
Proof.
  destruct (splice a start 1 []) as [removed a1] eqn:Hs.
  exists removed, a1. split; [done|].
  pose proof (splice_Permutation a start 1 []) as Hp.
  rewrite Hs, app_nil_r in Hp. simpl in Hp.
  assert (Hshort : (length removed ≤ 1)%nat).
  { unfold splice in Hs. injection Hs as <- _. rewrite length_take. lia. }
  split; [|split; [done|]].
  - destruct removed as [|x [|y removed]]; simpl in Hshort; [by left| |lia].
    right. by exists x.
  - by rewrite <-(Permutation_length Hp), length_app.
Qed.

(** Inserting one element at a position that is not negative. *)
Lemma splice_insert_at (a : list Slot) (d : Z) x :
  0 ≤ d →
  splice a d 0 [x]
  = ([], take (Z.to_nat d) a ++ x :: drop (Z.to_nat d) a).
Proof.
  intros Hd. unfold splice. rewrite decide_False by lia.
  replace (Z.to_nat (Z.min (Z.max 0 0) _)) with 0%nat by lia.
  rewrite Nat.add_0_r. simpl.
  destruct (decide (d ≤ Z.of_nat (length a))).
  - by rewrite Z.min_l by lia.
  - rewrite Z.min_r by lia. rewrite Nat2Z.id, take_0.
    by rewrite !take_ge, !drop_ge by lia.
Qed.

(** Flagging a slot in place keeps the elements up to flags, and adds
    only holes and the bare flag when the array grows. *)
Lemma set_spread_elements (a : list Slot) (d : Z) :
  ∃ extras,
    spread_isDragging <$> set a d (spread_isDragging (get a d))
    = spread_isDragging <$> (a ++ extras) ∧
    Forall (λ s, s = Undefined ∨ s = DraggingOnly) extras.
Proof.
  unfold set, get. destruct (decide (d < 0)) as [Hneg|Hneg].
  { exists []. by rewrite app_nil_r. }
  destruct (decide (d < Z.of_nat (length a))) as [Hlt|Hlt].
  - exists []. rewrite app_nil_r. split; [|done].
    destruct (lookup_lt_is_Some_2 a (Z.to_nat d)) as [y Hy]; [lia|].
    rewrite Hy. simpl. rewrite list_fmap_insert, spread_isDragging_idemp.
    apply list_insert_id. by rewrite list_lookup_fmap, Hy.
  - destruct (decide (d < MAX_ARRAY_LENGTH)) as [Hidx|Hidx].
    + exists (replicate (Z.to_nat d - length a)%nat Undefined ++ [DraggingOnly]).
      rewrite lookup_ge_None_2 by lia. split; [done|].
      apply Forall_app. split; [|by repeat constructor].
      apply Forall_replicate. by left.
    + exists []. by rewrite app_nil_r.
Qed.

(** X4.  Whatever the two indices are, a preview holds every element of
    the base order exactly once up to the dragging flag; what it holds
    besides are only holes and bare [{isDragging: true}] objects. *)
Theorem generateColumnOrder_keeps_columns (h : heap) l base (i d : Z) :
  h !! l = Some base →
  ∃ l' h' next extras,
    generateColumnOrder l (Some i) (Some d) h = Some (l', h') ∧
    h' !! l' = Some next ∧
    spread_isDragging <$> next ≡ₚ spread_isDragging <$> (base ++ extras) ∧
    Forall (λ s, s = Undefined ∨ s = DraggingOnly) extras.
Proof.
  intros Hl. destruct (decide (d = i)) as [->|Hne].
  - destruct (set_spread_elements base i) as (extras & Heq & Hextras).
    eexists l, _, _, extras. split; [by apply run_equal|].
    split; [apply lookup_insert_eq|]. by rewrite Heq.
  - cut (∃ extras,
           spread_isDragging <$> next_order base i d
           ≡ₚ spread_isDragging <$> (base ++ extras) ∧
           Forall (λ s, s = Undefined ∨ s = DraggingOnly) extras).
    { intros (extras & Hperm & Hextras).
      eexists (fresh (dom h)), _, (next_order base i d), extras.
      split; [by apply run_differ|]. split; [apply lookup_insert_eq|done]. }
    unfold next_order.
    destruct (splice_one base i) as (removed & a1 & -> & Hremoved & Hp & _).
    destruct (decide (0 ≤ d)) as [Hd|Hd].
    + rewrite splice_insert_at by done.
      destruct (set_spread_elements
                  (take (Z.to_nat d) a1 ++ get removed 0 :: drop (Z.to_nat d) a1) d)
        as (extras & -> & Hextras).
      destruct Hremoved as [-> | [x ->]].
      * exists ([Undefined] ++ extras). split.
        -- rewrite <-Permutation_middle, take_drop. simpl in Hp.
           rewrite (assoc_L (++)). rewrite !fmap_app. f_equiv.
           rewrite <-Hp. simpl. by rewrite <-Permutation_cons_append.
        -- apply Forall_app. split; [|done]. repeat constructor.
      * exists extras. split; [|done].
        rewrite <-Permutation_middle, take_drop.
        replace (get [x] 0) with x by done.
        rewrite !fmap_app. f_equiv. by rewrite <-Hp.
    + assert (Hset : ∀ a : list Slot, set a d (spread_isDragging (get a d)) = a).
      { intros a. unfold set. by rewrite decide_True by lia. }
      pose proof (splice_Permutation a1 d 0 [get removed 0]) as Hp2.
      destruct (splice a1 d 0 [get removed 0]) as [r2 a2] eqn:Hs2.
      assert (r2 = []) as ->.
      { unfold splice in Hs2. injection Hs2 as <- _.
        replace (Z.to_nat (Z.min (Z.max 0 0) _)) with 0%nat; [done|].
        rewrite decide_True by lia. lia. }
      simpl in Hp2. rewrite Hset.
      destruct Hremoved as [-> | [x ->]].
      * exists [Undefined]. split; [|repeat constructor; by left].
        simpl in Hp. by rewrite Hp2, Hp.
      * exists []. split; [|done]. rewrite app_nil_r, Hp2.
        replace (get [x] 0) with x by done.
        by rewrite <-Hp, <-Permutation_cons_append.
Qed.

Lemma generateColumnOrder_keeps_columns_witness :
  ∃ l' h' next extras,
    generateColumnOrder 1%positive (Some 7) (Some (-3)) two_columns = Some (l', h') ∧
    h' !! l' = Some next ∧
    spread_isDragging <$> next
    ≡ₚ spread_isDragging <$> ([id_column; title_column] ++ extras) ∧
    Forall (λ s, s = Undefined ∨ s = DraggingOnly) extras.
Proof.
  apply (generateColumnOrder_keeps_columns two_columns 1%positive
           [id_column; title_column] 7 (-3)).
  reflexivity.
Defined.

Lemma length_set (a : list Slot) (d : Z) v :
  0 ≤ d < MAX_ARRAY_LENGTH →
  Z.of_nat (length (set a d v)) = Z.max (Z.of_nat (length a)) (d + 1).
Proof.
  intros Hd. unfold set. rewrite decide_False by lia. repeat case_decide; try lia.
  - rewrite length_insert. lia.
  - rewrite !length_app, length_replicate. simpl. lia.
Qed.

Lemma lookup_set_eq (a : list Slot) (d : Z) v :
  0 ≤ d < MAX_ARRAY_LENGTH → set a d v !! Z.to_nat d = Some v.
Proof.
  intros Hd. pose proof (get_set_eq a d v Hd) as Hget.
  pose proof (length_set a d v Hd) as Hlen.
  unfold get in Hget. rewrite decide_False in Hget by lia.
  destruct (lookup_lt_is_Some_2 (set a d v) (Z.to_nat d)) as [y Hy]; [lia|].
  rewrite Hy in Hget. simpl in Hget. by rewrite Hy, Hget.
Qed.

(** X5.  With different indices and a destination at or beyond the end
    of the base order that is still an array index (below [2^32 - 1]),
    the preview has [destination + 1] slots and its last slot, the one
    at the destination, is the bare [{isDragging: true}] object and not
    a column. *)
Theorem generateColumnOrder_beyond_end (h : heap) l base (i d : Z) :
  h !! l = Some base →
  i ≠ d →
  Z.of_nat (length base) ≤ d < MAX_ARRAY_LENGTH →
  ∃ l' next,
    generateColumnOrder l (Some i) (Some d) h = Some (l', <[l' := next]> h) ∧
    Z.of_nat (length next) = d + 1 ∧
    next !! Z.to_nat d = Some DraggingOnly.
Proof.
  intros Hl Hne Hd.
  exists (fresh (dom h)), (next_order base i d).
  split; [by apply run_differ|].
  unfold next_order.
  destruct (splice_one base i) as (removed & a1 & -> & Hremoved & _ & Hlen).
  rewrite splice_insert_at by lia.
  rewrite take_ge, drop_ge by lia.
  assert (Hundef : get (a1 ++ [get removed 0]) d = Undefined).
  { unfold get. rewrite decide_False by lia.
    destruct (decide (Z.to_nat d = length a1)) as [Heq|Hneq].
    - rewrite Heq, list_lookup_middle by done. simpl.
      destruct Hremoved as [-> | [x ->]]; [done|]. simpl in Hlen. lia.
    - rewrite lookup_ge_None_2; [done|].
      rewrite length_app. simpl. lia. }
  rewrite Hundef. split.
  - rewrite length_set by lia. rewrite length_app. simpl. lia.
  - apply lookup_set_eq. lia.
Qed.

Lemma generateColumnOrder_beyond_end_witness :
  ∃ l' next,
    generateColumnOrder 1%positive (Some 0) (Some 2) two_columns
    = Some (l', <[l' := next]> two_columns) ∧
    Z.of_nat (length next) = 2 + 1 ∧
    next !! Z.to_nat 2 = Some DraggingOnly.
Proof.
  apply (generateColumnOrder_beyond_end two_columns 1%positive
           [id_column; title_column] 0 2);
    [reflexivity | lia | unfold MAX_ARRAY_LENGTH; simpl; lia].
Defined.

(** X6.  A negative source index counts from the end of the base order
    (and from its start when it reaches further back): the preview is
    the one for the source index [max (length + i) 0]. *)
Theorem generateColumnOrder_negative_source (h : heap) l base (i d : Z) :
  h !! l = Some base →
  i < 0 →
  d ≠ i →
  d ≠ Z.max (Z.of_nat (length base) + i) 0 →
  generateColumnOrder l (Some i) (Some d) h
  = generateColumnOrder l (Some (Z.max (Z.of_nat (length base) + i) 0)) (Some d) h.
Proof.
  intros Hl Hi Hne Hne'.
  rewrite !(run_differ h l base) by done.
  do 3 f_equal. unfold next_order.
  assert (splice base i 1 []
          = splice base (Z.max (Z.of_nat (length base) + i) 0) 1 []) as ->; [|done].
  unfold splice. rewrite decide_True by done. rewrite decide_False by lia.
  by rewrite (Z.min_l (Z.max (Z.of_nat (length base) + i) 0)) by lia.
Qed.

Lemma generateColumnOrder_negative_source_witness :
  generateColumnOrder 1%positive (Some (-1)) (Some 0) three_columns
  = generateColumnOrder 1%positive
      (Some (Z.max (Z.of_nat (length [id_column; title_column; count_column]) + -1) 0))
      (Some 0) three_columns.
Proof.
  apply (generateColumnOrder_negative_source three_columns 1%positive
           [id_column; title_column; count_column] (-1) 0);
    [reflexivity | lia | lia | simpl; lia].
Defined.

End PreviewMore.

(** ** More on the handlers of the table view *)

Module HandlersSpec.
Section Spec.

Variable COL_WIDTH_UNDEFINED : Z.
Variable parseInt : string → Z → Val.
Variable fields : EventView → list Field.t.
Variable withUpdatedColumn : EventView → Z → Payload.t → option MetaType → EventView.
Variable withMovedColumn : EventView → Z → Z → EventView.
Variable withNewColumnAt : EventView → CreatePayload.t → Z → EventView.
Variable withNewColumn : EventView → CreatePayload.t → EventView.
Variable withDeletedColumn : EventView → Z → option MetaType → EventView.
Variable explodeField : option Field.t → option Exploded.t.
Variable getAggregateFields : EventView → list Field.t.
Variable generateEventSlug : option TableDataRow → string.
Variable generateEventDetailsRoute : string → string → string.
Variable t : string → string.
Variable pickRelevantLocationQueryStrings : Location.t → Query.
Variable props : Props.t.

Local Abbreviation _updateColumn :=
  (TableView._updateColumn COL_WIDTH_UNDEFINED parseInt fields withUpdatedColumn
     explodeField pickRelevantLocationQueryStrings props).
Local Abbreviation _moveColumnCommit :=
  (TableView._moveColumnCommit parseInt fields withMovedColumn explodeField
     pickRelevantLocationQueryStrings props).
Local Abbreviation onDragDone :=
  (TableView.onDragDone parseInt fields withMovedColumn explodeField
     pickRelevantLocationQueryStrings props).
Local Abbreviation _createColumn :=
  (TableViewRest._createColumn COL_WIDTH_UNDEFINED parseInt withNewColumnAt
     withNewColumn pickRelevantLocationQueryStrings props).
Local Abbreviation _deleteColumn :=
  (TableViewRest._deleteColumn parseInt fields withDeletedColumn explodeField
     pickRelevantLocationQueryStrings props).
Local Abbreviation onToggleEdit := (TableViewRest.onToggleEdit parseInt props).
Local Abbreviation _renderPrependColumns :=
  (TableViewRest._renderPrependColumns getAggregateFields generateEventSlug
     generateEventDetailsRoute t props).

Local Abbreviation eventView := (Props.eventView props).
Local Abbreviation location := (Props.location props).
Local Abbreviation tableMeta := (Props.tableData props ≫= TableData.meta).
(** What the fields of a view hold at an index, by the list lookup:
    [None], for [undefined], outside the list. *)
Local Abbreviation nth_field view i :=
  (if decide (0 ≤ i) then fields view !! Z.to_nat i else None).
Local Abbreviation push nextEventView :=
  (PushEventViewToLocation location nextEventView
     (pickRelevantLocationQueryStrings location)).
Local Abbreviation updated columnIndex nextColumn :=
  (withUpdatedColumn eventView columnIndex
     (Payload.Build (TableColumn.aggregation nextColumn)
        (TableColumn.field nextColumn)
        (if decide (TableColumn.width nextColumn = 0)
         then COL_WIDTH_UNDEFINED else TableColumn.width nextColumn))
     tableMeta).

(** What [_updateColumn] does, by cases. *)
Lemma updateColumn_cases (columnIndex : Z) (nextColumn : TableColumn.t) :
  (updated columnIndex nextColumn = eventView ∧
   _updateColumn columnIndex nextColumn = Some [push eventView]) ∨
  (updated columnIndex nextColumn ≠ eventView ∧
   (explodeField (index (fields eventView) columnIndex) = None ∨
    explodeField (index (fields (updated columnIndex nextColumn)) columnIndex) = None) ∧
   _updateColumn columnIndex nextColumn = None) ∨
  (updated columnIndex nextColumn ≠ eventView ∧
   ∃ prevField nextField e,
     explodeField (index (fields eventView) columnIndex) = Some prevField ∧
     explodeField (index (fields (updated columnIndex nextColumn)) columnIndex)
     = Some nextField ∧
     _updateColumn columnIndex nextColumn
     = Some [TrackUpdateColumn e; push (updated columnIndex nextColumn)] ∧
     UpdateColumnEvent.changed e
     = TableView.push_if
         (bool_decide (Exploded.width prevField ≠ Exploded.width nextField)) "width"
         (TableView.push_if
            (bool_decide (Exploded.field prevField ≠ Exploded.field nextField)) "field"
            (TableView.push_if
               (bool_decide (Exploded.aggregation prevField
                             ≠ Exploded.aggregation nextField)) "aggregate" [])) ∧
     UpdateColumnEvent.payload e
     = Payload.Build (TableColumn.aggregation nextColumn)
         (TableColumn.field nextColumn)
         (if decide (TableColumn.width nextColumn = 0)
          then COL_WIDTH_UNDEFINED else TableColumn.width nextColumn)).
Proof.
  unfold TableView._updateColumn.
  destruct (decide (updated columnIndex nextColumn = eventView)) as [Heq|Hne].
  - left. split; [done|].
    rewrite (decide_False (P := _ ≠ _)) by (intros Hne; by apply Hne).
    simpl. by rewrite Heq.
  - right. rewrite (decide_True (P := _ ≠ _)) by done.
    destruct (explodeField (index (fields eventView) columnIndex))
      as [prevField|] eqn:Hprev; simpl; [|left; auto].
    destruct (explodeField (index (fields (updated columnIndex nextColumn)) columnIndex))
      as [nextField|] eqn:Hnext; simpl; [|left; auto].
    right. split; [done|]. by eexists prevField, nextField, _.
Qed.

(** What [_moveColumnCommit] does, by cases. *)
Lemma moveColumnCommit_cases (fromIndex toIndex : Z) :
  (explodeField (index (fields eventView) fromIndex) = None ∧
   _moveColumnCommit fromIndex toIndex = None) ∨
  (∃ prevField e,
     explodeField (index (fields eventView) fromIndex) = Some prevField ∧
     _moveColumnCommit fromIndex toIndex
     = Some [TrackMoveColumn e; push (withMovedColumn eventView fromIndex toIndex)] ∧
     MoveColumnEvent.from_index e = fromIndex ∧
     MoveColumnEvent.to_index e = toIndex).
Proof.
  unfold TableView._moveColumnCommit.
  destruct (explodeField (index (fields eventView) fromIndex)) as [prevField|];
    simpl; [right|left; done].
  by eexists prevField, _.
Qed.

(** X7.  For one pair of indices, the preview and the end of the drag
    agree: [generateColumnOrder] returns a reordered copy (a new array)
    exactly when [onDragDone] runs [_moveColumnCommit] on these indices
    and so does what the commit does; when the preview is the given
    array itself, [onDragDone] returns and does nothing. *)
Theorem preview_copies_iff_commit (h : gmap positive (list JsArray.Slot))
    (l : positive) (base : list JsArray.Slot)
    (draggingColumnIndex destinationColumnIndex : option Z) :
  h !! l = Some base →
  ((∃ l' h',
      Preview.generateColumnOrder l draggingColumnIndex destinationColumnIndex h
      = Some (l', h') ∧ l' ≠ l) ↔
   (∃ i j,
      draggingColumnIndex = Some i ∧ destinationColumnIndex = Some j ∧
      onDragDone draggingColumnIndex destinationColumnIndex
      = _moveColumnCommit i j)) ∧
  ((∃ h',
      Preview.generateColumnOrder l draggingColumnIndex destinationColumnIndex h
      = Some (l, h')) ↔
   onDragDone draggingColumnIndex destinationColumnIndex = Some []).
Proof.
  intros Hl.
  assert (Hcommit : ∀ i j, _moveColumnCommit i j ≠ Some []).
  { intros i j Hrun.
    destruct (moveColumnCommit_cases i j) as [[_ Hc]|(? & ? & _ & Hc & _)];
      rewrite Hc in Hrun; discriminate. }
  pose proof (PreviewFacts.fresh_unused h) as Hfresh.
  assert (Hnew : fresh (dom h) ≠ l).
  { intros Heq. rewrite Heq in Hfresh. congruence. }
  destruct draggingColumnIndex as [i|], destinationColumnIndex as [j|].
  2-4: (split;
        [split; [intros (? & ? & [= <- _] & ?); done
                |intros (? & ? & ? & ? & _); discriminate]
        |split; [done|intros _; by eexists]]).
  unfold TableView.onDragDone. destruct (decide (i = j)) as [->|Hne].
  - rewrite (PreviewFacts.run_equal h l base j Hl).
    rewrite (decide_False (P := _ ≠ _)) by (intros Hne; by apply Hne).
    split; split.
    + intros (l' & h' & [= <- _] & Hne'). done.
    + intros (i' & j' & _ & _ & Hrun). symmetry in Hrun. by apply Hcommit in Hrun.
    + done.
    + intros _. by eexists.
  - rewrite (PreviewFacts.run_differ h l base i j Hl) by done.
    rewrite (decide_True (P := _ ≠ _)) by done.
    split; split.
    + intros _. by exists i, j.
    + intros _. eexists _, _. split; [done|exact Hnew].
    + intros (h' & [= Heq _]). by destruct Hnew.
    + intros Hrun. by apply Hcommit in Hrun.
Qed.

(** X8.  [_createColumn] tracks one event and then pushes one view.  An
    index, also 0, gives the event for an index and
    the view of [withNewColumnAt]; no index gives the event for the
    right end and the view of [withNewColumn].  The view is made from
    the payload that is tracked, whose width is [COL_WIDTH_UNDEFINED]:
    of the new column only aggregation, field and name are used. *)
Theorem createColumn_effects (nextColumn : TableColumn.t) (insertAt : option Z) :
  (∃ e nextEventView,
     _createColumn nextColumn insertAt
     = [TrackCreateColumn e; Do (push nextEventView)] ∧
     CreateColumnEvent.insert_at_index e = insertAt ∧
     CreatePayload.width (CreateColumnEvent.payload e) = COL_WIDTH_UNDEFINED ∧
     CreatePayload.fieldname (CreateColumnEvent.payload e) = TableColumn.name nextColumn ∧
     match insertAt with
     | Some k =>
         CreateColumnEvent.eventKey e = "discover_v2.add_column" ∧
         nextEventView = withNewColumnAt eventView (CreateColumnEvent.payload e) k
     | None =>
         CreateColumnEvent.eventKey e = "discover_v2.add_column.right_end" ∧
         nextEventView = withNewColumn eventView (CreateColumnEvent.payload e)
     end) ∧
  (∀ other : TableColumn.t,
     TableColumn.aggregation other = TableColumn.aggregation nextColumn →
     TableColumn.field other = TableColumn.field nextColumn →
     TableColumn.name other = TableColumn.name nextColumn →
     _createColumn other insertAt = _createColumn nextColumn insertAt).
Proof.
  split.
  - unfold TableViewRest._createColumn. destruct insertAt as [k|]; simpl;
      eexists _, _; (split; [reflexivity|]); done.
  - intros other Ha Hf Hn. unfold TableViewRest._createColumn.
    by rewrite Ha, Hf, Hn.
Qed.

(** X9.  When the event view gives back the view it was asked to change,
    [_updateColumn] tracks nothing and only pushes that view, whereas
    [_deleteColumn] still tracks the deletion, with the index and with
    the aggregation and field of the exploded field that the view has at
    that index, before it pushes. *)
Theorem unchanged_view_update_and_delete (columnIndex : Z) (nextColumn : TableColumn.t) :
  (updated columnIndex nextColumn = eventView →
   _updateColumn columnIndex nextColumn = Some [push eventView]) ∧
  (withDeletedColumn eventView columnIndex tableMeta = eventView →
   ∀ deleted prevField,
     0 ≤ columnIndex →
     fields eventView !! Z.to_nat columnIndex = Some deleted →
     explodeField (Some deleted) = Some prevField →
     _deleteColumn columnIndex
     = Some [TrackDeleteColumn
               (DeleteColumnEvent.Build "discover_v2.delete_column"
                  "Discoverv2: A column was deleted" columnIndex
                  (parseInt (Organization.id (Props.organization props)) 10)
                  (Exploded.aggregation prevField) (Exploded.field prevField));
             Do (push eventView)]).
Proof.
  split.
  - intros Heq.
    destruct (updateColumn_cases columnIndex nextColumn)
      as [[_ Hrun]|[[Hne _]|[Hne _]]]; done.
  - intros Heq deleted prevField Hi Hdeleted Hprev.
    unfold TableViewRest._deleteColumn.
    rewrite (IndexFacts.index_Some _ _ _ Hi Hdeleted), Hprev. simpl.
    by rewrite Heq.
Qed.

(** X10.  Every handler that returns has put at most one view on the
    location, as its last effect, after at most one tracked event; the
    view is pushed for the location of the props with the query strings
    picked from that location.  [onToggleEdit] pushes nothing. *)
Theorem handlers_push_last :
  (∀ columnIndex nextColumn effects,
     _updateColumn columnIndex nextColumn = Some effects →
     ∃ tracked nextEventView,
       effects = tracked ++ [push nextEventView] ∧
       (tracked = [] ∨ ∃ e, tracked = [TrackUpdateColumn e])) ∧
  (∀ fromIndex toIndex effects,
     _moveColumnCommit fromIndex toIndex = Some effects →
     ∃ e nextEventView, effects = [TrackMoveColumn e; push nextEventView]) ∧
  (∀ dragging destination effects,
     onDragDone dragging destination = Some effects →
     effects = [] ∨
     ∃ e nextEventView, effects = [TrackMoveColumn e; push nextEventView]) ∧
  (∀ nextColumn insertAt,
     ∃ e nextEventView,
       _createColumn nextColumn insertAt
       = [TrackCreateColumn e; Do (push nextEventView)]) ∧
  (∀ columnIndex actions,
     _deleteColumn columnIndex = Some actions →
     ∃ e nextEventView, actions = [TrackDeleteColumn e; Do (push nextEventView)]) ∧
  (∀ isEditing, ∃ e, onToggleEdit isEditing = [TrackEditMode e]).
Proof.
  assert (Hmove : ∀ fromIndex toIndex effects,
            _moveColumnCommit fromIndex toIndex = Some effects →
            ∃ e nextEventView, effects = [TrackMoveColumn e; push nextEventView]).
  { intros i j effects Hrun.
    destruct (moveColumnCommit_cases i j) as [[_ Hc]|(? & e & _ & Hc & _)];
      rewrite Hc in Hrun; [discriminate|]. injection Hrun as <-. eauto. }
  split; [|split; [done|split; [|split; [|split]]]].
  - intros columnIndex nextColumn effects Hrun.
    destruct (updateColumn_cases columnIndex nextColumn)
      as [[_ Hc]|[(_ & _ & Hc)|(_ & ? & ? & e & _ & _ & Hc & _)]];
      rewrite Hc in Hrun; [|discriminate|]; injection Hrun as <-.
    + exists [], eventView. auto.
    + exists [TrackUpdateColumn e]. eauto.
  - intros dragging destination effects Hrun. unfold TableView.onDragDone in Hrun.
    destruct dragging as [i|], destination as [j|];
      try (injection Hrun as <-; by left).
    case_decide; [right; by eapply Hmove|]. injection Hrun as <-. by left.
  - intros nextColumn insertAt.
    destruct (createColumn_effects nextColumn insertAt) as [(e & v & Hc & _) _].
    eauto.
  - intros columnIndex actions Hrun. unfold TableViewRest._deleteColumn in Hrun.
    destruct (explodeField _); simpl in Hrun; [|discriminate].
    injection Hrun as <-. eauto.
  - intros []; unfold TableViewRest.onToggleEdit; eauto.
Qed.

(** X11.  The prepended column is one node, in the header and in a row
    alike, and both show the same icon: the stack when the event view
    has aggregate fields, the single event otherwise.  The link of a row
    goes to the details route of the organization and of the slug of the
    row, with the query of the location as it is. *)
Theorem renderPrependColumns_icon (dataRow : option TableDataRow) (rowIndex : option Z) :
  ∃ icon key,
    _renderPrependColumns true dataRow rowIndex = [HeaderIcon "header-icon" icon] ∧
    _renderPrependColumns false dataRow rowIndex
    = [Tooltip key (t "View Details")
         (IconLink
            (Target.Build
               (generateEventDetailsRoute
                  (Organization.slug (Props.organization props))
                  (generateEventSlug dataRow))
               (Location.query location))
            "view-events" icon)] ∧
    (icon = IconStack ↔ getAggregateFields eventView ≠ []) ∧
    (icon = IconEvent ↔ getAggregateFields eventView = []).
Proof.
  unfold TableViewRest._renderPrependColumns.
  eexists _, _. split; [reflexivity|]. split; [reflexivity|].
  destruct (getAggregateFields eventView) as [|f rest]; simpl.
  - by split; split.
  - by split; split.
Qed.

Lemma push_if_sublist a f w :
  TableView.push_if w "width"
    (TableView.push_if f "field" (TableView.push_if a "aggregate" []))
  `sublist_of` ["aggregate"; "field"; "width"].
Proof. destruct a, f, w; simpl; repeat constructor. Qed.

Lemma push_if_nil a f w :
  TableView.push_if w "width"
    (TableView.push_if f "field" (TableView.push_if a "aggregate" [])) = []
  ↔ a = false ∧ f = false ∧ w = false.
Proof. destruct a, f, w; simpl; intuition discriminate. Qed.

(** X12.  When the event view gives a new view, [_updateColumn] tracks
    one update event, also when the exploded fields at the column index
    before and after are equal.  Its [changed] list is a sublist of
    aggregate, field, width, so it names each part at most once and in
    this order, and it is empty exactly when the two exploded fields
    are equal.  The event reports the payload that was asked for. *)
Theorem updateColumn_changed_shape (columnIndex : Z) (nextColumn : TableColumn.t)
    (prevColumn nextColumn' : Field.t) (prevField nextField : Exploded.t) :
  updated columnIndex nextColumn ≠ eventView →
  0 ≤ columnIndex →
  fields eventView !! Z.to_nat columnIndex = Some prevColumn →
  fields (updated columnIndex nextColumn) !! Z.to_nat columnIndex
  = Some nextColumn' →
  explodeField (Some prevColumn) = Some prevField →
  explodeField (Some nextColumn') = Some nextField →
  ∃ e,
    _updateColumn columnIndex nextColumn
    = Some [TrackUpdateColumn e; push (updated columnIndex nextColumn)] ∧
    UpdateColumnEvent.changed e `sublist_of` ["aggregate"; "field"; "width"] ∧
    (UpdateColumnEvent.changed e = [] ↔ prevField = nextField) ∧
    UpdateColumnEvent.payload e
    = Payload.Build (TableColumn.aggregation nextColumn)
        (TableColumn.field nextColumn)
        (if decide (TableColumn.width nextColumn = 0)
         then COL_WIDTH_UNDEFINED else TableColumn.width nextColumn).
Proof.
  intros Hne Hi Hpc Hnc Hprev Hnext.
  destruct (updateColumn_cases columnIndex nextColumn)
    as [[Heq _]|[(_ & Hex & _)|(_ & p & n & e & Hp & Hn & Hc & Hch & Hpay)]].
  - done.
  - rewrite (IndexFacts.index_Some _ _ _ Hi Hpc) in Hex.
    rewrite (IndexFacts.index_Some _ _ _ Hi Hnc) in Hex.
    destruct Hex; congruence.
  - rewrite (IndexFacts.index_Some _ _ _ Hi Hpc) in Hp.
    rewrite (IndexFacts.index_Some _ _ _ Hi Hnc) in Hn.
    assert (p = prevField) as -> by congruence.
    assert (n = nextField) as -> by congruence.
    exists e. split; [done|].
    split; [rewrite Hch; apply push_if_sublist|]. split; [|done].
    rewrite Hch, push_if_nil, !bool_decide_eq_false.
    destruct prevField as [a1 f1 w1], nextField as [a2 f2 w2]. simpl. split.
    + intros (Ha & Hf & Hw). apply dec_stable in Ha, Hf, Hw. congruence.
    + intros [= -> -> ->]. repeat split; intros Hne'; by apply Hne'.
Qed.

(** X13.  A handler throws exactly where [explodeField] throws on what
    the fields of the event view hold at the index ([undefined] outside
    the list), and then before any effect: [_updateColumn] exactly when
    the event view gave a new view and [explodeField] throws on the
    field before or after, so that this new view is not pushed;
    [_moveColumnCommit] and [_deleteColumn] when it throws on the field
    at the index; [onDragDone] only on a drop that is committed. *)
Theorem handlers_throw :
  (∀ columnIndex nextColumn,
     _updateColumn columnIndex nextColumn = None ↔
     updated columnIndex nextColumn ≠ eventView ∧
     (explodeField (nth_field eventView columnIndex) = None ∨
      explodeField (nth_field (updated columnIndex nextColumn) columnIndex) = None)) ∧
  (∀ fromIndex toIndex,
     _moveColumnCommit fromIndex toIndex = None ↔
     explodeField (nth_field eventView fromIndex) = None) ∧
  (∀ columnIndex,
     _deleteColumn columnIndex = None ↔
     explodeField (nth_field eventView columnIndex) = None) ∧
  (∀ dragging destination,
     onDragDone dragging destination = None ↔
     ∃ i j, dragging = Some i ∧ destination = Some j ∧ i ≠ j ∧
            explodeField (nth_field eventView i) = None).
Proof.
  assert (Hmove : ∀ fromIndex toIndex,
            _moveColumnCommit fromIndex toIndex = None ↔
            explodeField (nth_field eventView fromIndex) = None).
  { intros i j. rewrite <-IndexFacts.index_spec.
    destruct (moveColumnCommit_cases i j) as [[Hex Hc]|(p & e & Hex & Hc & _)];
      rewrite Hc, Hex; done. }
  split; [|split; [done|split]].
  - intros columnIndex nextColumn. rewrite <-!IndexFacts.index_spec.
    destruct (updateColumn_cases columnIndex nextColumn)
      as [[Heq Hc]|[(Hne & Hex & Hc)|(Hne & p & n & e & Hp & Hn & Hc & _)]];
      rewrite Hc.
    + split; [done|]. by intros [Hne _].
    + done.
    + split; [done|]. rewrite Hp, Hn. by intros [_ [?|?]].
  - intros columnIndex. rewrite <-IndexFacts.index_spec.
    unfold TableViewRest._deleteColumn.
    by destruct (explodeField _).
  - intros dragging destination. unfold TableView.onDragDone.
    destruct dragging as [i|], destination as [j|];
      try (split; [done | intros (? & ? & ? & ? & _); discriminate]).
    case_decide as Hij.
    + rewrite Hmove. split; [eauto 10|].
      by intros (? & ? & [= <-] & _ & _ & Hex).
    + split; [done|]. intros (? & ? & [= <-] & [= <-] & Hne & _). by destruct Hne.
Qed.

(** X14.  [_moveColumnCommit], which [render] also gives to the grid as
    an action, does not compare its indices: called with one index
    twice it tracks a move from that index to itself and pushes the view
    of [withMovedColumn], where [onDragDone] with these indices does
    nothing. *)
Theorem moveColumnCommit_same_index (i : Z) (prevField : Exploded.t) :
  explodeField (index (fields eventView) i) = Some prevField →
  (∃ e,
     _moveColumnCommit i i
     = Some [TrackMoveColumn e; push (withMovedColumn eventView i i)] ∧
     MoveColumnEvent.from_index e = i ∧ MoveColumnEvent.to_index e = i) ∧
  onDragDone (Some i) (Some i) = Some [].
Proof.
  intros Hex. split.
  - destruct (moveColumnCommit_cases i i) as [[Hnone _]|(p & e & _ & Hc & Hf & Ht)];
      [congruence|eauto].
  - unfold TableView.onDragDone.
    by rewrite (decide_False (P := _ ≠ _)) by (intros Hne; by apply Hne).
Qed.

End Spec.

Lemma preview_copies_iff_commit_witness :
  ((∃ l' h',
      Preview.generateColumnOrder 1%positive (Some 0) (Some 1) Samples.two_columns
      = Some (l', h') ∧ l' ≠ 1%positive) ↔
   (∃ i j,
      Some 0 = Some i ∧ Some 1 = Some j ∧
      TableView.onDragDone Samples.parseInt Samples.fields Samples.withMovedColumn
        Samples.explodeField Samples.pickRelevantLocationQueryStrings Samples.props
        (Some 0) (Some 1)
      = TableView._moveColumnCommit Samples.parseInt Samples.fields
          Samples.withMovedColumn Samples.explodeField
          Samples.pickRelevantLocationQueryStrings Samples.props i j)) ∧
  ((∃ h',
      Preview.generateColumnOrder 1%positive (Some 0) (Some 1) Samples.two_columns
      = Some (1%positive, h')) ↔
   TableView.onDragDone Samples.parseInt Samples.fields Samples.withMovedColumn
     Samples.explodeField Samples.pickRelevantLocationQueryStrings Samples.props
     (Some 0) (Some 1) = Some []).
Proof.
  apply (preview_copies_iff_commit Samples.parseInt Samples.fields
           Samples.withMovedColumn Samples.explodeField
           Samples.pickRelevantLocationQueryStrings Samples.props
           Samples.two_columns 1%positive
           [Samples.id_column; Samples.title_column] (Some 0) (Some 1)).
  reflexivity.
Defined.

Lemma updateColumn_changed_shape_witness :
  ∃ e,
    TableView._updateColumn (-1) Samples.parseInt MoreSamples.same_fields
      MoreSamples.withUpdatedColumn Samples.explodeField
      Samples.pickRelevantLocationQueryStrings Samples.props 0
      (Samples.column "id" "string")
    = Some [TrackUpdateColumn e;
            PushEventViewToLocation (Props.location Samples.props) 2%positive
              (Samples.pickRelevantLocationQueryStrings
                 (Props.location Samples.props))] ∧
    UpdateColumnEvent.changed e `sublist_of` ["aggregate"; "field"; "width"] ∧
    (UpdateColumnEvent.changed e = []
     ↔ Exploded.Build "" "id" (-1) = Exploded.Build "" "id" (-1)) ∧
    UpdateColumnEvent.payload e = Payload.Build "" "id" (-1).
Proof.
  apply (updateColumn_changed_shape (-1) Samples.parseInt MoreSamples.same_fields
           MoreSamples.withUpdatedColumn Samples.explodeField
           Samples.pickRelevantLocationQueryStrings Samples.props 0
           (Samples.column "id" "string")
           (Field.Build "id" (-1)) (Field.Build "id" (-1))
           (Exploded.Build "" "id" (-1)) (Exploded.Build "" "id" (-1)));
    [discriminate | lia | reflexivity | reflexivity | reflexivity | reflexivity].
Defined.

(** A new view with the same fields: the event is tracked, and nothing
    is named as changed. *)
Example updateColumn_nothing_changed :
  TableView._updateColumn (-1) Samples.parseInt MoreSamples.same_fields
    MoreSamples.withUpdatedColumn Samples.explodeField
    Samples.pickRelevantLocationQueryStrings Samples.props 0
    (Samples.column "id" "string")
  = Some [TrackUpdateColumn
            (UpdateColumnEvent.Build "discover_v2.update_column"
               "Discoverv2: A column was updated" 0 [] (Num 42)
               (Payload.Build "" "id" (-1)));
          PushEventViewToLocation Samples.location 2%positive ∅].
Proof. vm_compute. reflexivity. Qed.

Lemma moveColumnCommit_same_index_witness :
  (∃ e,
     TableView._moveColumnCommit Samples.parseInt Samples.fields
       Samples.withMovedColumn Samples.explodeField
       Samples.pickRelevantLocationQueryStrings Samples.props 0 0
     = Some [TrackMoveColumn e;
             PushEventViewToLocation (Props.location Samples.props)
               (Samples.withMovedColumn (Props.eventView Samples.props) 0 0)
               (Samples.pickRelevantLocationQueryStrings
                  (Props.location Samples.props))] ∧
     MoveColumnEvent.from_index e = 0 ∧ MoveColumnEvent.to_index e = 0) ∧
  TableView.onDragDone Samples.parseInt Samples.fields Samples.withMovedColumn
    Samples.explodeField Samples.pickRelevantLocationQueryStrings Samples.props
    (Some 0) (Some 0) = Some [].
Proof.
  apply (moveColumnCommit_same_index Samples.parseInt Samples.fields
           Samples.withMovedColumn Samples.explodeField
           Samples.pickRelevantLocationQueryStrings Samples.props 0
           (Exploded.Build "" "id" (-1))).
  reflexivity.
Defined.

(** The table of [id] and [count()]: a column added at index 0, a column
    deleted although the view stays, and the prepended column. *)
Example createColumn_at_0 :
  TableViewRest._createColumn (-1) Samples.parseInt MoreSamples.withNewColumnAt
    MoreSamples.withNewColumn Samples.pickRelevantLocationQueryStrings Samples.props
    (TableColumn.Build "title" "title" "" "title" (Field.Build "title" 300)
       "string" 300 false)
    (Some 0)
  = [TrackCreateColumn
       (CreateColumnEvent.Build "discover_v2.add_column"
          "Discoverv2: Add a new column at an index" (Some 0) (Num 42)
          (CreatePayload.Build "" "title" "title" (-1)));
     Do (PushEventViewToLocation Samples.location 4%positive ∅)].
Proof. vm_compute. reflexivity. Qed.

Example deleteColumn_tracks :
  TableViewRest._deleteColumn Samples.parseInt Samples.fields
    MoreSamples.withDeletedColumn Samples.explodeField
    Samples.pickRelevantLocationQueryStrings Samples.props 1
  = Some [TrackDeleteColumn
            (DeleteColumnEvent.Build "discover_v2.delete_column"
               "Discoverv2: A column was deleted" 1 (Num 42) "count" "");
          Do (PushEventViewToLocation Samples.location 1%positive ∅)] ∧
  TableViewRest._deleteColumn Samples.parseInt Samples.fields
    MoreSamples.withDeletedColumn Samples.explodeField
    Samples.pickRelevantLocationQueryStrings Samples.props 2
  = None.
Proof. vm_compute. done. Qed.

Example renderPrependColumns_samples :
  TableViewRest._renderPrependColumns MoreSamples.getAggregateFields
    (λ _, "project:abc") (λ org slug, "/organizations/" +:+ org +:+ "/" +:+ slug)
    English.t Samples.props true None None
  = [HeaderIcon "header-icon" IconStack] ∧
  TableViewRest._renderPrependColumns MoreSamples.getAggregateFields
    (λ _, "project:abc") (λ org slug, "/organizations/" +:+ org +:+ "/" +:+ slug)
    English.t Samples.props false (Some Samples.row) (Some 3)
  = [Tooltip "eventlink3" "View Details"
       (IconLink (Target.Build "/organizations/acme/project:abc" ∅)
          "view-events" IconStack)].
Proof. vm_compute. done. Qed.
End HandlersSpec.

(** ** More on the rate-limit form *)

Module RateLimitMore.
Import RateLimit.

Lemma append_char_inj (s1 s2 : string) (c : ascii) :
  s1 +:+ String c "" = s2 +:+ String c "" → s1 = s2.
Proof.
  revert s2. induction s1 as [|a s1 IH]; intros [|b s2]; simpl; intros Heq.
  - done.
  - injection Heq as _ Heq. by destruct s2.
  - injection Heq as _ Heq. by destruct s1.
  - injection Heq as -> Heq. f_equal. by apply IH.
Qed.

(** X15.  The form starts with a project limit that is never 0: the
    limit of the quota, or 100 when the quota has none or has 0; a limit
    outside the range of the slider is taken as it is.  The start label
    of the project slider is the one for no limit exactly when the quota
    has no project limit, 0 or 100.  The account limit is taken as it
    is, and its start label is the one for no limit when it is unset or
    0. *)
Theorem initialData_labels (t : string → string)
    (tct : string → list (string * string) → string)
    (toLocaleString toString : Z → string) (quota : Quota.t) :
  InitialData.projectRateLimit (initialData quota) ≠ 0 ∧
  (∀ p, Quota.projectLimit quota = Some p → p ≠ 0 →
        InitialData.projectRateLimit (initialData quota) = p) ∧
  (Quota.projectLimit quota = None ∨ Quota.projectLimit quota = Some 0 ∨
   Quota.projectLimit quota = Some 100 ↔
   projectRateLimit_formatLabel t toString
     (Some (InitialData.projectRateLimit (initialData quota)))
   = LabelHtml (t "No Limit" +:+ " &mdash; 100%")) ∧
  InitialData.accountRateLimit (initialData quota) = Quota.accountLimit quota ∧
  (Quota.accountLimit quota = None ∨ Quota.accountLimit quota = Some 0 →
   accountRateLimit_formatLabel t tct toLocaleString
     (InitialData.accountRateLimit (initialData quota))
   = LabelText (t "No Limit")).
Proof.
  destruct quota as [[p|] account]; unfold initialData; simpl.
  - destruct (decide (p = 0)) as [->|Hp].
    + split; [done|]. split; [by intros ? [= <-]|]. split; [|split; [done|]].
      * split; [done|auto].
      * by intros [-> | ->].
    + rewrite bool_decide_eq_false_2 by done.
      split; [done|]. split; [by intros ? [= <-]|]. split; [|split; [done|]].
      * unfold projectRateLimit_formatLabel. split.
        -- intros [?|[[= ->]|[= ->]]]; done.
        -- case_decide as Hne; [done|]. intros _. by right; right.
      * by intros [-> | ->].
  - split; [done|]. split; [done|]. split; [|split; [done|]].
    + split; [done|auto].
    + by intros [-> | ->].
Qed.

(** X16.  Different values of the project slider never have the same
    label: the label is injective on the safe integers. *)
Theorem projectRateLimit_formatLabel_inj (t : string → string)
    (toString : Z → string) (n m : Z) :
  Z.abs n ≤ MAX_SAFE_INTEGER →
  Z.abs m ≤ MAX_SAFE_INTEGER →
  n ≠ m →
  projectRateLimit_formatLabel t toString (Some n)
  ≠ projectRateLimit_formatLabel t toString (Some m).
Proof.
  intros Hsn Hsm Hne. unfold projectRateLimit_formatLabel, template.
  rewrite !(decide_True (P := _ ≤ _)) by done.
  case_decide as Hn; case_decide as Hm; intros Heq; try discriminate.
  - injection Heq as Heq. apply append_char_inj in Heq.
    by apply (inj pretty) in Heq.
  - congruence.
Qed.

Lemma projectRateLimit_formatLabel_inj_witness :
  projectRateLimit_formatLabel English.t pretty (Some 95)
  ≠ projectRateLimit_formatLabel English.t pretty (Some 100).
Proof.
  apply (projectRateLimit_formatLabel_inj English.t pretty 95 100);
    unfold MAX_SAFE_INTEGER; lia.
Defined.

End RateLimitMore.
